(** * GraphRAG-SDK example notebooks: a verification development

    The repository holds two notebooks that drive the GraphRAG SDK: one
    builds a knowledge graph about movies from six URLs, the other builds
    one about UFC fights from a directory of HTML files.  The code cells are
    embedded below the way they are written: list comprehensions as maps,
    [for] loops with [append] as left folds over an accumulator, Python
    floats as IEEE 754 binary64 numbers, dictionaries as association lists
    in insertion order.  Functions of the SDK and of the Python standard
    library that the cells call are modelled in modules of their own, each
    of which says where its definitions come from. *)

From Stdlib Require Import ZArith Ascii Floats.SpecFloat.
From stdpp Require Import gmap strings list.

Open Scope string_scope.
Open Scope list_scope.

(** Output that the notebooks recorded is kept with a backquote wherever it
    has a double quote; [quoted] puts the double quotes back. *)
Fixpoint quoted (s : string) : string :=
  match s with
  | EmptyString => EmptyString
  | String c rest =>
      String (if Ascii.eqb c "`"%char then "034"%char else c) (quoted rest)
  end.

(** ** Source loading (both notebooks, cell 3) *)

Module SourceLoader.

(** The two constructors that the cells call: [URL(url)] from
    [graphrag_sdk.source] in the movies notebook and [Source(path)] in the
    UFC notebook. *)
Inductive source : Type :=
  | URL (url : string)
  | Source (path : string).

#[global] Instance source_eq_dec : EqDecision source.
Proof. solve_decision. Defined.

(** [urls] as the movies notebook writes it. *)
Definition urls : list string :=
  [ "https://www.rottentomatoes.com/m/side_by_side_2012";
    "https://www.rottentomatoes.com/m/matrix";
    "https://www.rottentomatoes.com/m/matrix_revolutions";
    "https://www.rottentomatoes.com/m/matrix_reloaded";
    "https://www.rottentomatoes.com/m/speed_1994";
    "https://www.rottentomatoes.com/m/john_wick_chapter_4" ].

(** [sources = [URL(url) for url in urls]] *)
Definition load_urls (urls : list string) : list source :=
  (fun url => URL url) <$> urls.

(** [src_files = "examples/ufc/data/fight"] *)
Definition src_files : string := "examples/ufc/data/fight".

Definition sep : string := "/".

Definition startswith (s p : string) : bool := String.prefix p s.

Definition endswith (s p : string) : bool :=
  String.prefix (String.rev p) (String.rev s).

(** [os.path.join(path, b)] on POSIX, for one component:
    [if b.startswith(sep) or not path: path = b
     elif path.endswith(sep): path += b
     else: path += sep + b]. *)
Definition os_path_join (path b : string) : string :=
  if startswith b sep || String.eqb path EmptyString then b
  else if endswith path sep then path +:+ b
  else path +:+ sep +:+ b.

(** One iteration of the loop body:
    [sources.append(Source(os.path.join(src_files, file)))]. *)
Definition append_source (sources : list source) (file : string) : list source :=
  sources ++ [Source (os_path_join src_files file)].

(** [sources = []] followed by [for file in os.listdir(src_files): ...];
    [listing] is what [os.listdir(src_files)] returned. *)
Definition load_files (listing : list string) : list source :=
  fold_left append_source listing [].

(** What each raw input becomes, whichever notebook loads it. *)
Definition of_url (url : string) : source := URL url.
Definition of_file (file : string) : source := Source (os_path_join src_files file).

Lemma fold_append_source (listing : list string) (acc : list source) :
  fold_left append_source listing acc = acc ++ (of_file <$> listing).
Proof.
  revert acc. induction listing as [|file listing IH]; intros acc; simpl.
  - by rewrite app_nil_r.
  - rewrite IH. unfold append_source, of_file. by rewrite <- app_assoc.
Qed.

Lemma load_files_map (listing : list string) :
  load_files listing = of_file <$> listing.
Proof. unfold load_files. by rewrite fold_append_source. Qed.

Example load_urls_notebook :
  load_urls urls =
  [ URL "https://www.rottentomatoes.com/m/side_by_side_2012";
    URL "https://www.rottentomatoes.com/m/matrix";
    URL "https://www.rottentomatoes.com/m/matrix_revolutions";
    URL "https://www.rottentomatoes.com/m/matrix_reloaded";
    URL "https://www.rottentomatoes.com/m/speed_1994";
    URL "https://www.rottentomatoes.com/m/john_wick_chapter_4" ].
Proof. reflexivity. Qed.

Example load_files_two :
  load_files ["a.html"; "b.html"] =
  [ Source "examples/ufc/data/fight/a.html";
    Source "examples/ufc/data/fight/b.html" ].
Proof. reflexivity. Qed.

(** C5. For every list of raw inputs, URL strings as in the movies notebook
    or file names as in the UFC notebook, the loader builds exactly one
    source object per input: the list of sources is as long as the input
    list, and its i-th element is the object made from the i-th input
    ([URL(u)], respectively [Source(os.path.join(src_files, p))]), so count
    and order are those of the input. *)
Theorem source_loader_one_per_input (raw : list string) :
  (length (load_urls raw) = length raw /\
   forall i : nat, load_urls raw !! i = of_url <$> (raw !! i)) /\
  (length (load_files raw) = length raw /\
   forall i : nat, load_files raw !! i = of_file <$> (raw !! i)).
Proof.
  rewrite load_files_map. unfold load_urls.
  repeat split.
  - apply length_fmap.
  - intros i. apply list_lookup_fmap.
  - apply length_fmap.
  - intros i. apply list_lookup_fmap.
Qed.

End SourceLoader.

(** ** Sampling for ontology detection (UFC notebook, cell 4) *)

Module Sampling.

(** *** Python floats

    A Python [float] is an IEEE 754 binary64 number; the Standard
    Library's [spec_float] with [prec = 53] and [emax = 1024] is its
    specification. *)

Definition prec : Z := 53.
Definition emax : Z := 1024.

(** Conversion of a (non-negative) [int] to [float], as [int * float] does
    with its left operand. *)
Definition float_of_int (n : Z) : spec_float :=
  binary_normalize prec emax n 0 false.

(** The literal [0.1]: the binary64 number nearest to one tenth. *)
Definition float_literal_0_1 : spec_float :=
  SFdiv prec emax (float_of_int 1) (float_of_int 10).

(** [percent = 0.1] *)
Definition percent : spec_float := float_literal_0_1.

(** [round(x)] with one argument: the nearest integer, a tie going to the
    even neighbour; [None] stands for the exception raised on an infinity
    or a NaN. *)
Definition round_half_even (m : Z) (d : Z) : Z :=
  let q := (m / d)%Z in
  let r := (m mod d)%Z in
  match (2 * r ?= d)%Z with
  | Lt => q
  | Gt => (q + 1)%Z
  | Eq => if Z.even q then q else (q + 1)%Z
  end.

Definition py_round (x : spec_float) : option Z :=
  match x with
  | S754_zero _ => Some 0%Z
  | S754_finite s m e =>
      let a := match e with
               | Zneg p => round_half_even (Zpos m) (2 ^ Zpos p)
               | _ => (Zpos m * 2 ^ e)%Z
               end in
      Some (if s then (- a)%Z else a)
  | S754_infinity _ | S754_nan => None
  end.

(** [round(len(sources) * percent)] for a list of [n] sources. *)
Definition sample_size (percent : spec_float) (n : nat) : option Z :=
  py_round (SFmul prec emax (float_of_int (Z.of_nat n)) percent).

(** [boundaries], the text that cell 4 hands to the ontology detection. *)
Definition boundaries : string := "
    Extract only the most relevant information about UFC fighters, fights, and events.
    Avoid creating entities for details that can be expressed as attributes.
".

(** *** [random.sample]

    [random.sample(population, k)] is the standard library's; the model
    follows CPython's [Lib/random.py] (3.12, the notebook's kernel).  What a
    call can do is an [outcome]: return a value, raise, or still be running
    when the fuel given to its [while] loop is spent. *)

Inductive exn : Type := ValueError | IndexError | OverflowError.

Inductive outcome (A : Type) : Type :=
  | Return (a : A)
  | Raise (e : exn)
  | OutOfFuel.
Arguments Return {A} a.
Arguments Raise {A} e.
Arguments OutOfFuel {A}.

#[global] Instance outcome_ret : MRet outcome := fun A a => Return a.
#[global] Instance outcome_bind : MBind outcome := fun A B f m =>
  match m with
  | Return a => f a
  | Raise e => Raise e
  | OutOfFuel => OutOfFuel
  end.

(** [seq[i]], which raises [IndexError] out of range. *)
Definition getitem {A : Type} (l : list A) (i : nat) : outcome A :=
  match l !! i with
  | Some x => Return x
  | None => Raise IndexError
  end.

(** [_ceil(_log(x, 4))], computed on integers: the least [e] with
    [x <= 4 ** e]. *)
Definition ceil_log4 (x : nat) : nat := (Nat.log2_up x + 1) / 2.

(** [setsize = 21; if k > 5: setsize += 4 ** _ceil(_log(k * 3, 4))] *)
Definition setsize (k : nat) : nat :=
  if decide (5 < k) then 21 + 4 ^ ceil_log4 (k * 3) else 21.

Section RandomSample.

Context {A : Type}.

(** The generator: [rng] is its state and [randbelow n] is
    [self._randbelow(n)], which returns a number below [n] and moves the
    state on. *)
Variable rng : Type.
Variable randbelow : nat -> rng -> nat * rng.

(** The pool branch:
    [for i in range(k):
         j = randbelow(n - i)
         result[i] = pool[j]
         pool[j] = pool[n - i - 1]]
    with [steps] iterations left to run from index [i]. *)
Fixpoint pool_loop (steps i n : nat) (pool : list A) (g : rng)
    (result : list A) : outcome (list A * rng) :=
  match steps with
  | O => Return (result, g)
  | S steps' =>
      let '(j, g') := randbelow (n - i) g in
      x ← getitem pool j;
      y ← getitem pool (n - i - 1);
      pool_loop steps' (S i) n (<[j := y]> pool) g' (result ++ [x])
  end.

(** [while j in selected: j = randbelow(n)], given at most [fuel] further
    draws. *)
Fixpoint redraw (fuel n : nat) (selected : gset nat) (j : nat) (g : rng)
    : outcome (nat * rng) :=
  if decide (j ∈ selected) then
    match fuel with
    | O => OutOfFuel
    | S fuel' => let '(j', g') := randbelow n g in redraw fuel' n selected j' g'
    end
  else Return (j, g).

(** The set branch:
    [for i in range(k):
         j = randbelow(n)
         while j in selected: j = randbelow(n)
         selected_add(j)
         result[i] = population[j]]. *)
Fixpoint set_loop (fuel steps n : nat) (population : list A)
    (selected : gset nat) (g : rng) (result : list A)
    : outcome (list A * rng) :=
  match steps with
  | O => Return (result, g)
  | S steps' =>
      let '(j0, g0) := randbelow n g in
      '(j, g') ← redraw fuel n selected j0 g0;
      x ← getitem population j;
      set_loop fuel steps' n population ({[j]} ∪ selected) g' (result ++ [x])
  end.

(** [random.sample(population, k)] *)
Definition random_sample (fuel : nat) (population : list A) (k : Z) (g : rng)
    : outcome (list A * rng) :=
  let n := length population in
  if negb ((0 <=? k)%Z && (k <=? Z.of_nat n)%Z) then Raise ValueError
  else
    let k := Z.to_nat k in
    if decide (n <= setsize k) then pool_loop k 0 n population g []
    else set_loop fuel k n population ∅ g [].

(** [sampled_sources = random.sample(sources, round(len(sources) * percent))] *)
Definition sampled_sources (fuel : nat) (percent : spec_float)
    (sources : list A) (g : rng) : outcome (list A * rng) :=
  match sample_size percent (length sources) with
  | Some k => random_sample fuel sources k g
  | None => Raise OverflowError
  end.

(** The keyword arguments with which cell 4 calls
    [Ontology.from_sources(sources=sampled_sources, boundaries=boundaries,
    model=model)]. *)
Record from_sources_call : Type := {
  call_sources : list A;
  call_boundaries : string;
  call_model : string
}.

(** Cell 4 up to that call: [percent], [boundaries] and [model] are set,
    the sources are sampled, and the call is made with the sample. *)
Definition detect_ontology (fuel : nat) (sources : list A) (g : rng)
    : outcome (from_sources_call * rng) :=
  '(sampled, g') ← sampled_sources fuel percent sources g;
  Return ({| call_sources := sampled;
             call_boundaries := boundaries;
             call_model := "gpt-4o" |}, g').

(** **** What the generator is assumed to do *)

(** [randbelow(n)] is below [n]. *)
Hypothesis randbelow_lt : forall (n : nat) (g : rng),
  0 < n -> (randbelow n g).1 < n.

(** Every number below [n] comes up sooner or later when [randbelow(n)] is
    called again and again: without this the rejection loop of the set
    branch need not stop. *)
Hypothesis randbelow_fair : forall (n : nat) (g : rng) (v : nat),
  v < n ->
  exists m : nat,
    (randbelow n (Nat.iter m (fun g => (randbelow n g).2) g)).1 = v.

(** **** The pool branch *)

Lemma take_move_last (pool : list A) (m j : nat) (x y : A) :
  j <= m -> pool !! j = Some x -> pool !! m = Some y ->
  take (S m) pool ≡ₚ x :: take m (<[j := y]> pool).
Proof.
  intros Hj Hx Hy.
  rewrite (take_S_r _ _ _ Hy).
  destruct (decide (j = m)) as [->|Hne].
  - rewrite take_insert_ge by lia.
    assert (x = y) by congruence. subst y.
    by rewrite Permutation_app_comm.
  - rewrite take_insert_lt by lia.
    assert (Hjm : take m pool !! j = Some x) by (rewrite lookup_take_lt; [done|lia]).
    rewrite insert_take_drop by (by apply lookup_lt_Some in Hjm).
    rewrite <- (take_drop_middle _ _ _ Hjm) at 1.
    rewrite <- app_assoc. simpl.
    rewrite <- Permutation_middle. apply Permutation_skip.
    apply Permutation_app_head. symmetry. apply Permutation_cons_append.
Qed.

Lemma pool_loop_returns (population : list A) (steps : nat) :
  forall (i : nat) (pool : list A) (g : rng) (result : list A),
    length pool = length population ->
    i + steps <= length population ->
    length result = i ->
    result ++ take (length population - i) pool ≡ₚ population ->
    exists (sampled : list A) (g' : rng),
      pool_loop steps i (length population) pool g result = Return (sampled, g') /\
      length sampled = i + steps /\
      sampled ⊆+ population.
Proof.
  set (n := length population).
  induction steps as [|steps IH]; intros i pool g result Hlen Hi Hres Hperm.
  - exists result, g. split; [done|]. split; [lia|].
    rewrite <- Hperm. by apply submseteq_inserts_r.
  - simpl. destruct (randbelow (n - i) g) as [j g'] eqn:Hdraw.
    assert (Hj : j < n - i).
    { pose proof (randbelow_lt (n - i) g) as H. rewrite Hdraw in H. apply H. lia. }
    destruct (lookup_lt_is_Some_2 pool j) as [x Hx]; [lia|].
    destruct (lookup_lt_is_Some_2 pool (n - i - 1)) as [y Hy]; [lia|].
    unfold getitem. rewrite Hx, Hy. simpl.
    destruct (IH (S i) (<[j:=y]> pool) g' (result ++ [x])) as (sampled & g'' & Hrun & Hl & Hsub).
    + by rewrite length_insert.
    + lia.
    + rewrite length_app. simpl. lia.
    + rewrite <- Hperm.
      replace (n - i) with (S (n - i - 1)) by lia.
      rewrite (take_move_last pool (n - i - 1) j x y) by (done || lia).
      replace (n - S i) with (n - i - 1) by lia.
      rewrite <- app_assoc. done.
    + exists sampled, g''. split; [done|]. split; [lia|done].
Qed.

(** **** The set branch *)

Lemma redraw_unselected (fuel n : nat) (selected : gset nat) :
  forall (j : nat) (g : rng) (j' : nat) (g' : rng),
    redraw fuel n selected j g = Return (j', g') -> j' ∉ selected.
Proof.
  induction fuel as [|fuel IH]; intros j g j' g'; simpl.
  - case_decide; [done|]. by intros [= <- <-].
  - case_decide as Hin.
    + destruct (randbelow n g) as [j1 g1]. apply IH.
    + by intros [= <- <-].
Qed.

Lemma redraw_lt (fuel n : nat) (selected : gset nat) :
  forall (j : nat) (g : rng) (j' : nat) (g' : rng),
    0 < n -> j < n ->
    redraw fuel n selected j g = Return (j', g') -> j' < n.
Proof.
  induction fuel as [|fuel IH]; intros j g j' g' Hn Hj; simpl.
  - case_decide; [done|]. by intros [= <- <-].
  - case_decide; [|by intros [= <- <-]].
    pose proof (randbelow_lt n g Hn) as Hlt.
    destruct (randbelow n g) as [j1 g1]. by apply IH.
Qed.

Lemma redraw_mono (fuel fuel' n : nat) (selected : gset nat) :
  fuel <= fuel' ->
  forall (j : nat) (g : rng) (r : nat * rng),
    redraw fuel n selected j g = Return r ->
    redraw fuel' n selected j g = Return r.
Proof.
  revert fuel'. induction fuel as [|fuel IH]; intros fuel' Hle j g r; simpl.
  - case_decide; [done|]. intros <-. destruct fuel'; simpl; by rewrite decide_False.
  - destruct fuel' as [|fuel']; [lia|]. simpl. case_decide; [|done].
    destruct (randbelow n g) as [j1 g1]. apply IH. lia.
Qed.

Lemma redraw_reaches (n : nat) (selected : gset nat) (v : nat) :
  v ∉ selected ->
  forall (m j : nat) (g : rng),
    (randbelow n (Nat.iter m (fun g => (randbelow n g).2) g)).1 = v ->
    exists r : nat * rng, redraw (S m) n selected j g = Return r.
Proof.
  intros Hv. induction m as [|m IH]; intros j g Hm.
  - simpl in *. case_decide; [|by eexists].
    destruct (randbelow n g) as [j1 g1]. simpl in Hm. subst j1.
    rewrite decide_False by done. by eexists.
  - rewrite Nat.iter_succ_r in Hm.
    change (redraw (S (S m)) n selected j g) with
      (if decide (j ∈ selected)
       then let '(j', g') := randbelow n g in redraw (S m) n selected j' g'
       else Return (j, g)).
    case_decide; [|by eexists].
    destruct (randbelow n g) as [j1 g1]. simpl in Hm. by apply IH.
Qed.

Lemma unselected_exists (n : nat) (selected : gset nat) :
  size selected < n -> exists v : nat, v < n /\ v ∉ selected.
Proof.
  intros Hsize.
  destruct (decide (set_seq 0 n ∖ selected = (∅ : gset nat))) as [Hempty|Hne].
  - assert (Hsub : (set_seq 0 n : gset nat) ⊆ selected).
    { intros x Hx. destruct (decide (x ∈ selected)) as [|Hout]; [done|].
      assert (Hd : x ∈ set_seq (C:=gset nat) 0 n ∖ selected)
        by (by apply elem_of_difference).
      rewrite Hempty in Hd. by apply not_elem_of_empty in Hd. }
    apply subseteq_size in Hsub. rewrite size_set_seq in Hsub. lia.
  - apply set_choose_L in Hne as [v Hv]. exists v.
    apply elem_of_difference in Hv as [Hv1 Hv2].
    apply elem_of_set_seq in Hv1. split; [lia|done].
Qed.

Lemma redraw_terminates (n : nat) (selected : gset nat) (j : nat) (g : rng) :
  size selected < n ->
  exists (fuel : nat) (r : nat * rng), redraw fuel n selected j g = Return r.
Proof.
  intros Hsize. destruct (unselected_exists n selected Hsize) as (v & Hv & Hfresh).
  destruct (randbelow_fair n g v Hv) as [m Hm].
  destruct (redraw_reaches n selected v Hfresh m j g Hm) as [r Hr].
  by exists (S m), r.
Qed.

(** The indices [js] picked so far, the elements [result] found there and
    the set [selected] that the loop keeps. *)
Definition picked (population : list A) (js : list nat) (result : list A)
    (selected : gset nat) : Prop :=
  NoDup js /\
  Forall2 (fun (j : nat) (x : A) => population !! j = Some x) js result /\
  selected = list_to_set js.

Lemma picked_snoc (population : list A) (js : list nat) (result : list A)
    (selected : gset nat) (j : nat) (x : A) :
  picked population js result selected ->
  j ∉ selected -> population !! j = Some x ->
  picked population (js ++ [j]) (result ++ [x]) ({[j]} ∪ selected).
Proof.
  intros (Hnd & Hall & ->) Hj Hx. repeat split.
  - apply NoDup_app. split; [done|]. split; [|apply NoDup_singleton].
    intros y Hy ->%list_elem_of_singleton. apply Hj. by apply elem_of_list_to_set.
  - apply Forall2_app; [done|]. by constructor.
  - rewrite list_to_set_app_L. simpl.
    by rewrite (right_id_L ∅ (∪)), (comm_L (∪)).
Qed.

Lemma set_loop_picks (fuel : nat) (population : list A) (steps : nat) :
  forall (selected : gset nat) (g : rng) (result : list A) (js : list nat)
         (sampled : list A) (g' : rng),
    picked population js result selected ->
    set_loop fuel steps (length population) population selected g result
      = Return (sampled, g') ->
    exists js' : list nat,
      picked population js' sampled (list_to_set js') /\
      length js' = length js + steps.
Proof.
  induction steps as [|steps IH]; intros selected g result js sampled g' Hinv; simpl.
  - intros [= <- <-]. exists js. split; [|lia].
    destruct Hinv as (? & ? & ?). by repeat split.
  - destruct (randbelow (length population) g) as [j0 g0].
    destruct (redraw fuel (length population) selected j0 g0) as [[j g1]| |] eqn:Hre;
      simpl; try done.
    unfold getitem. destruct (population !! j) as [x|] eqn:Hx; simpl; [|done].
    intros Hrun.
    apply redraw_unselected in Hre.
    destruct (IH _ _ _ (js ++ [j]) _ _ (picked_snoc _ _ _ _ _ _ Hinv Hre Hx) Hrun)
      as (js' & Hpicked & Hlen).
    exists js'. split; [done|]. rewrite length_app in Hlen. simpl in Hlen. lia.
Qed.

Lemma set_loop_mono (fuel fuel' : nat) (population : list A) (steps : nat) :
  fuel <= fuel' ->
  forall (selected : gset nat) (g : rng) (result : list A) (r : list A * rng),
    set_loop fuel steps (length population) population selected g result = Return r ->
    set_loop fuel' steps (length population) population selected g result = Return r.
Proof.
  intros Hle. induction steps as [|steps IH]; intros selected g result r; simpl; [done|].
  destruct (randbelow (length population) g) as [j0 g0].
  destruct (redraw fuel (length population) selected j0 g0) as [[j g1]| |] eqn:Hre;
    simpl; try done.
  rewrite (redraw_mono _ _ _ _ Hle _ _ _ Hre). simpl.
  destruct (getitem population j); simpl; try done. apply IH.
Qed.

Lemma set_loop_returns (population : list A) (steps : nat) :
  forall (selected : gset nat) (g : rng) (result : list A) (js : list nat),
    picked population js result selected ->
    length js + steps <= length population ->
    exists (fuel : nat) (r : list A * rng),
      set_loop fuel steps (length population) population selected g result = Return r.
Proof.
  induction steps as [|steps IH]; intros selected g result js Hinv Hlen.
  - exists 0, (result, g). done.
  - assert (Hsize : size selected < length population).
    { destruct Hinv as (Hnd & _ & ->).
      rewrite size_list_to_set by done. lia. }
    destruct (randbelow (length population) g) as [j0 g0] eqn:Hdraw.
    destruct (redraw_terminates (length population) selected j0 g0 Hsize)
      as (fuel1 & [j g1] & Hre).
    assert (Hj : j < length population).
    { apply (redraw_lt fuel1 _ selected j0 g0 j g1); [lia| |done].
      pose proof (randbelow_lt (length population) g) as H.
      rewrite Hdraw in H. apply H. lia. }
    destruct (lookup_lt_is_Some_2 population j Hj) as [x Hx].
    pose proof (redraw_unselected _ _ _ _ _ _ _ Hre) as Hfresh.
    destruct (IH ({[j]} ∪ selected) g1 (result ++ [x]) (js ++ [j])) as (fuel2 & r & Hrun).
    { by apply picked_snoc. }
    { rewrite length_app. simpl. lia. }
    exists (fuel1 `max` fuel2), r. simpl. rewrite Hdraw.
    rewrite (redraw_mono fuel1 (fuel1 `max` fuel2) _ _ (Nat.le_max_l _ _) _ _ _ Hre).
    simpl. unfold getitem. rewrite Hx. simpl.
    apply (set_loop_mono fuel2); [lia|done].
Qed.

(** Elements found at pairwise distinct positions form a sub-multiset. *)
Lemma picked_submseteq (population : list A) (js : list nat) (result : list A)
    (selected : gset nat) :
  picked population js result selected -> result ⊆+ population.
Proof.
  intros (Hnd & Hall & _).
  destruct result as [|d result']; [apply submseteq_nil_l|].
  set (result := d :: result') in *.
  set (f := fun j : nat => default d (population !! j)).
  assert (Hres : result = f <$> js).
  { clearbody result. induction Hall as [|j x js res Hjx _ IHall]; [done|].
    simpl. unfold f at 1. rewrite Hjx. simpl. f_equal. apply IHall.
    by apply NoDup_cons in Hnd as [_ ?]. }
  assert (Hpop : population = f <$> seq 0 (length population)).
  { apply list_eq. intros i. rewrite list_lookup_fmap.
    destruct (population !! i) as [x|] eqn:Hx.
    - rewrite lookup_seq_lt by (by apply lookup_lt_Some in Hx).
      simpl. unfold f. by rewrite Hx.
    - rewrite lookup_seq_ge by (by apply lookup_ge_None in Hx). done. }
  rewrite Hres, Hpop. apply fmap_submseteq.
  apply NoDup_submseteq; [done|].
  intros j Hj. apply elem_of_seq.
  destruct (proj1 (list_elem_of_lookup js j) Hj) as [i Hi].
  destruct (Forall2_lookup_l _ _ _ _ _ Hall Hi) as (x & _ & Hx).
  apply lookup_lt_Some in Hx. lia.
Qed.

(** **** The call as a whole *)

Lemma random_sample_returns (population : list A) (k : Z) (g : rng) :
  (0 <= k <= Z.of_nat (length population))%Z ->
  exists (fuel : nat) (sampled : list A) (g' : rng),
    random_sample fuel population k g = Return (sampled, g').
Proof.
  intros Hk. unfold random_sample.
  assert (Hguard : (0 <=? k)%Z && (k <=? Z.of_nat (length population))%Z = true).
  { apply andb_true_iff. split; apply Z.leb_le; lia. }
  rewrite Hguard. simpl. case_decide.
  - destruct (pool_loop_returns population (Z.to_nat k) 0 population g [])
      as (sampled & g' & Hrun & _); simpl; try done; try lia.
    { by rewrite Nat.sub_0_r, firstn_all. }
    by exists 0, sampled, g'.
  - destruct (set_loop_returns population (Z.to_nat k) ∅ g [] [])
      as (fuel & [sampled g'] & Hrun); simpl; try lia.
    { repeat split; [apply NoDup_nil_2|constructor]. }
    by exists fuel, sampled, g'.
Qed.

Lemma random_sample_sound (fuel : nat) (population : list A) (k : Z) (g : rng)
    (sampled : list A) (g' : rng) :
  random_sample fuel population k g = Return (sampled, g') ->
  Z.of_nat (length sampled) = k /\ sampled ⊆+ population.
Proof.
  unfold random_sample.
  destruct ((0 <=? k)%Z && (k <=? Z.of_nat (length population))%Z) eqn:Hguard;
    simpl; [|done].
  apply andb_true_iff in Hguard as [H0%Z.leb_le Hn%Z.leb_le].
  case_decide.
  - destruct (pool_loop_returns population (Z.to_nat k) 0 population g [])
      as (sampled1 & g1 & Hrun & Hlen & Hsub); simpl; try done; try lia.
    { by rewrite Nat.sub_0_r, firstn_all. }
    rewrite Hrun. intros [= <- <-]. split; [lia|done].
  - intros Hrun.
    destruct (set_loop_picks fuel population (Z.to_nat k) ∅ g [] [] sampled g')
      as (js & Hpicked & Hlen); [|done|].
    { repeat split; [apply NoDup_nil_2|constructor]. }
    split; [|by eapply picked_submseteq].
    destruct Hpicked as (_ & Hall & _). apply Forall2_length in Hall.
    simpl in Hlen. lia.
Qed.

End RandomSample.

(** The literal evaluates to the double [0x3FB999999999999A]. *)
Example percent_bits : percent = S754_finite false 7205759403792794 (-56).
Proof. vm_compute. reflexivity. Qed.

(** Rounding to binary64 keeps the sign of what it rounds. *)
Lemma binary_round_aux_nonneg (m e : Z) (l : location) :
  match binary_round_aux prec emax false m e l with
  | S754_zero s | S754_finite s _ _ => s = false
  | _ => True
  end.
Proof.
  unfold binary_round_aux.
  destruct (shr_fexp prec emax m e l) as [mrs e1].
  destruct (shr_fexp prec emax _ e1 loc_Exact) as [mrs2 e2].
  destruct (shr_m mrs2); [done| |done].
  by destruct (e2 <=? emax - prec)%Z.
Qed.

Lemma round_half_even_nonneg (m d : Z) :
  (0 <= m)%Z -> (0 < d)%Z -> (0 <= round_half_even m d)%Z.
Proof.
  intros Hm Hd. unfold round_half_even.
  assert (0 <= m / d)%Z by (apply Z.div_pos; lia).
  destruct (2 * (m mod d) ?= d)%Z; [destruct (Z.even (m / d))| |]; lia.
Qed.

Lemma py_round_nonneg (m : positive) (e k : Z) :
  py_round (S754_finite false m e) = Some k -> (0 <= k)%Z.
Proof.
  simpl. intros [= <-]. destruct e as [|p|p].
  - lia.
  - apply Z.mul_nonneg_nonneg; [lia|]. apply Z.pow_nonneg. lia.
  - apply round_half_even_nonneg; [lia|]. apply Z.pow_pos_nonneg; lia.
Qed.

(** The number of documents to sample is never negative. *)
Lemma sample_size_nonneg (n : nat) (k : Z) :
  sample_size percent n = Some k -> (0 <= k)%Z.
Proof.
  unfold sample_size. rewrite percent_bits.
  unfold float_of_int, binary_normalize.
  destruct (Z.of_nat n) as [|p|p] eqn:Hn; [by intros [= <-]| |lia].
  unfold binary_round.
  destruct (shl_align p 0 _) as [mz ez].
  pose proof (binary_round_aux_nonneg (Z.pos mz) ez loc_Exact) as Hx.
  destruct (binary_round_aux prec emax false (Z.pos mz) ez loc_Exact)
    as [s|s| |s mx ex]; try subst s; try done.
  - by intros [= <-].
  - unfold SFmul.
    pose proof (binary_round_aux_nonneg (Z.pos (mx * 7205759403792794))
                  (ex + -56) loc_Exact) as Hy.
    change (xorb false false) with false.
    destruct (binary_round_aux prec emax false _ _ loc_Exact)
      as [s|s| |s my ey]; try subst s; try done.
    + by intros [= <-].
    + apply py_round_nonneg.
Qed.

Lemma submseteq_NoDup {A : Type} (l k : list A) : l ⊆+ k -> NoDup k -> NoDup l.
Proof.
  intros Hsub Hk. apply submseteq_Permutation in Hsub as [rest Hperm].
  rewrite Hperm in Hk. by apply NoDup_app in Hk as [? _].
Qed.

(** A generator to run the model with: it counts. *)
Definition counter_randbelow (n : nat) (g : nat) : nat * nat := (g mod n, S g).

Lemma counter_randbelow_lt (n g : nat) : 0 < n -> (counter_randbelow n g).1 < n.
Proof. intros Hn. simpl. apply Nat.mod_upper_bound. lia. Qed.

Lemma counter_randbelow_state (n m g : nat) :
  Nat.iter m (fun g => (counter_randbelow n g).2) g = g + m.
Proof. induction m as [|m IH]; simpl in *; [lia|]. rewrite IH. lia. Qed.

Lemma counter_randbelow_fair (n g v : nat) :
  v < n ->
  exists m : nat,
    (counter_randbelow n (Nat.iter m (fun g => (counter_randbelow n g).2) g)).1 = v.
Proof.
  intros Hv. exists (v + (n - g mod n)).
  pose proof (counter_randbelow_state n (v + (n - g mod n)) g) as Hst.
  simpl in *. rewrite Hst.
  pose proof (Nat.div_mod_eq g n) as Hg.
  pose proof (Nat.mod_upper_bound g n) as Hr.
  replace (g + (v + (n - g mod n))) with (v + S (g / n) * n) by nia.
  rewrite Nat.Div0.mod_add. by apply Nat.mod_small.
Qed.

(** Thirty file names, as [os.listdir] could return them. *)
Definition thirty_files : list string :=
  (fun i : nat => String (Ascii.ascii_of_nat (97 + i)) ".html") <$> seq 0 30.

(** C6. For every list of n sources and [percent = 0.1], when
    [k = round(n * percent)] is at most n, cell 4 reaches its call of
    [Ontology.from_sources], for a generator whose [randbelow(n)] stays
    below n and keeps reaching every number below n; and whenever it does,
    the [sources] that the call is given are what
    [random.sample(sources, round(len(sources) * percent))] returned: a list
    of exactly k elements that is a sub-multiset of the sources, each
    position of the sources being taken at most once, so without
    duplicates when the sources have none. *)
Theorem sampled_sources_duplicate_free_subset {A : Type} (rng : Type)
    (randbelow : nat -> rng -> nat * rng) :
  (forall (n : nat) (g : rng), 0 < n -> (randbelow n g).1 < n) ->
  (forall (n : nat) (g : rng) (v : nat), v < n ->
     exists m : nat,
       (randbelow n (Nat.iter m (fun g => (randbelow n g).2) g)).1 = v) ->
  forall (sources : list A) (g : rng) (k : Z),
    sample_size percent (length sources) = Some k ->
    (k <= Z.of_nat (length sources))%Z ->
    (exists (fuel : nat) (call : from_sources_call) (g' : rng),
       detect_ontology rng randbelow fuel sources g = Return (call, g')) /\
    (forall (fuel : nat) (call : from_sources_call) (g' : rng),
       detect_ontology rng randbelow fuel sources g = Return (call, g') ->
       random_sample rng randbelow fuel sources k g
         = Return (call_sources call, g') /\
       Z.of_nat (length (call_sources call)) = k /\
       call_sources call ⊆+ sources /\
       (NoDup sources -> NoDup (call_sources call))).
Proof.
  intros Hlt Hfair sources g k Hk Hle.
  unfold detect_ontology, sampled_sources. rewrite Hk. split.
  - destruct (random_sample_returns rng randbelow Hlt Hfair sources k g)
      as (fuel & sampled & g' & Hrun).
    { split; [by eapply sample_size_nonneg|done]. }
    exists fuel. rewrite Hrun. simpl. by eexists _, _.
  - intros fuel call g' Hrun.
    destruct (random_sample rng randbelow fuel sources k g)
      as [[sampled g'']| |] eqn:Hsample; simpl in Hrun; try discriminate.
    injection Hrun as <- <-. simpl.
    destruct (random_sample_sound rng randbelow Hlt fuel sources k g sampled g''
                Hsample) as [Hlen Hsub].
    repeat split; [done|done|]. by apply submseteq_NoDup.
Qed.

Lemma sampled_sources_duplicate_free_subset_witness :
  let sources := SourceLoader.load_files thirty_files in
  (exists (fuel : nat) (call : from_sources_call) (g' : nat),
     detect_ontology nat counter_randbelow fuel sources 0 = Return (call, g')) /\
  (forall (fuel : nat) (call : from_sources_call) (g' : nat),
     detect_ontology nat counter_randbelow fuel sources 0 = Return (call, g') ->
     random_sample nat counter_randbelow fuel sources 3%Z 0
       = Return (call_sources call, g') /\
     Z.of_nat (length (call_sources call)) = 3%Z /\
     call_sources call ⊆+ sources /\
     (NoDup sources -> NoDup (call_sources call))).
Proof.
  apply (sampled_sources_duplicate_free_subset nat counter_randbelow
           counter_randbelow_lt counter_randbelow_fair
           (SourceLoader.load_files thirty_files) 0 3%Z).
  - vm_compute. reflexivity.
  - vm_compute. discriminate.
Defined.

Example sampled_thirty :
  fst <$> (match sampled_sources nat counter_randbelow 2 percent
                   (SourceLoader.load_files thirty_files) 0 with
           | Return r => Some r | _ => None end)
  = Some [ SourceLoader.Source "examples/ufc/data/fight/a.html";
           SourceLoader.Source "examples/ufc/data/fight/b.html";
           SourceLoader.Source "examples/ufc/data/fight/c.html" ].
Proof. vm_compute. reflexivity. Qed.

(** The float [0.5]. *)
Definition float_literal_0_5 : spec_float :=
  SFdiv prec emax (float_of_int 1) (float_of_int 2).

(** C10. With [percent = 0.1], for every source directory that holds between
    one and five files, [round(len(sources) * percent)] is 0 (for five files
    the product is the float 0.5 itself, which rounds to the even
    neighbour 0), so [random.sample] returns the empty list, without
    drawing a random number, and [Ontology.from_sources] is called with
    that empty list as its [sources]. *)
Theorem small_corpus_samples_nothing (rng : Type)
    (randbelow : nat -> rng -> nat * rng) (fuel : nat) (g : rng)
    (listing : list string) :
  1 <= length listing <= 5 ->
  let sources := SourceLoader.load_files listing in
  sample_size percent (length sources) = Some 0%Z /\
  SFmul prec emax (float_of_int 5) percent = float_literal_0_5 /\
  sampled_sources rng randbelow fuel percent sources g = Return ([], g) /\
  exists call : from_sources_call,
    detect_ontology rng randbelow fuel sources g = Return (call, g) /\
    call_sources call = [].
Proof.
  intros Hn sources.
  assert (Hlen : length sources = length listing).
  { unfold sources. rewrite SourceLoader.load_files_map. apply length_fmap. }
  assert (Hk : sample_size percent (length sources) = Some 0%Z).
  { rewrite Hlen.
    destruct (length listing) as [|[|[|[|[|[|n]]]]]]; try lia;
      vm_compute; reflexivity. }
  assert (Hsample :
    sampled_sources rng randbelow fuel percent sources g = Return ([], g)).
  { unfold sampled_sources. rewrite Hk. unfold random_sample. simpl.
    assert (Hguard : (0 <=? Z.of_nat (length sources))%Z = true)
      by (apply Z.leb_le; lia).
    rewrite Hguard. simpl. by case_decide. }
  split; [done|]. split; [vm_compute; reflexivity|]. split; [done|].
  unfold detect_ontology. rewrite Hsample. simpl. by eexists.
Qed.

Lemma small_corpus_samples_nothing_witness :
  let sources := SourceLoader.load_files ["a.html"; "b.html"; "c.html"] in
  sample_size percent (length sources) = Some 0%Z /\
  SFmul prec emax (float_of_int 5) percent = float_literal_0_5 /\
  sampled_sources nat counter_randbelow 0 percent sources 7 = Return ([], 7) /\
  exists call : from_sources_call,
    detect_ontology nat counter_randbelow 0 sources 7 = Return (call, 7) /\
    call_sources call = [].
Proof.
  apply (small_corpus_samples_nothing nat counter_randbelow 0 7
           ["a.html"; "b.html"; "c.html"]).
  simpl. lia.
Defined.

End Sampling.

(** ** The code cells as syntax

    Whether a cell defines a function or branches is a question about its
    text, so the code cells of the two notebooks are also given as syntax
    trees, statement by statement.  The tree types follow Python's [ast]
    module and have the constructs a cell could use to compute on its own
    ([def], [class], [lambda], [if], [while], [try], conditional
    expressions, comprehension filters) next to those the cells do use.
    String literals keep their spelling in the source. *)

Module Notebook.

#[local] Unset Elimination Schemes.

Inductive expr : Type :=
  | Name (id : string)
  | Str (s : string)
  | Num (literal : string)
  | NoneLit
  | Attribute (value : expr) (attr : string)
  | Subscript (value : expr) (index : expr)
  | Call (func : expr) (args : list expr) (keywords : list (string * expr))
  | BinOp (left : expr) (op : string) (right : expr)
  | BoolOp (op : string) (values : list expr)
  | Compare (left : expr) (op : string) (right : expr)
  | ListLit (elts : list expr)
  | DictLit (items : list (expr * expr))
  | ListComp (elt : expr) (target : string) (iter : expr) (ifs : list expr)
  | JoinedStr (values : list expr)
  | IfExp (test body orelse : expr)
  | Lambda (params : list string) (body : expr).

Inductive stmt : Type :=
  | Shell (command : string)
  | Import (name : string)
  | ImportFrom (module : string) (names : list string)
  | Assign (target : expr) (value : expr)
  | AugAssign (target : expr) (op : string) (value : expr)
  | Expr (value : expr)
  | For (target : string) (iter : expr) (body : list stmt)
  | While (test : expr) (body : list stmt)
  | If (test : expr) (body orelse : list stmt)
  | With (context : expr) (target : string) (body : list stmt)
  | Try (body handlers finalbody : list stmt)
  | FunctionDef (name : string) (params : list string) (body : list stmt)
  | ClassDef (name : string) (bases : list expr) (body : list stmt)
  | ReturnStmt (value : expr).

#[local] Set Elimination Schemes.

Definition cell : Type := list stmt.

(** Every expression inside an expression, itself included. *)
Fixpoint subexprs (e : expr) : list expr :=
  e ::
  match e with
  | Name _ | Str _ | Num _ | NoneLit => []
  | Attribute v _ => subexprs v
  | Subscript v i => subexprs v ++ subexprs i
  | Call f args keywords =>
      subexprs f ++ flat_map subexprs args
        ++ flat_map (fun kw => subexprs (snd kw)) keywords
  | BinOp l _ r => subexprs l ++ subexprs r
  | BoolOp _ vs => flat_map subexprs vs
  | Compare l _ r => subexprs l ++ subexprs r
  | ListLit es => flat_map subexprs es
  | DictLit items =>
      flat_map (fun kv => subexprs (fst kv) ++ subexprs (snd kv)) items
  | ListComp elt _ iter ifs =>
      subexprs elt ++ subexprs iter ++ flat_map subexprs ifs
  | JoinedStr vs => flat_map subexprs vs
  | IfExp t b o => subexprs t ++ subexprs b ++ subexprs o
  | Lambda _ b => subexprs b
  end.

(** Every statement inside a statement, itself included. *)
Fixpoint substmts (s : stmt) : list stmt :=
  s ::
  match s with
  | For _ _ body | While _ body | With _ _ body
  | FunctionDef _ _ body | ClassDef _ _ body => flat_map substmts body
  | If _ body orelse => flat_map substmts body ++ flat_map substmts orelse
  | Try body handlers finalbody =>
      flat_map substmts body ++ flat_map substmts handlers
        ++ flat_map substmts finalbody
  | _ => []
  end.

(** The expressions a statement holds directly. *)
Definition own_exprs (s : stmt) : list expr :=
  match s with
  | Assign t v | AugAssign t _ v => [t; v]
  | Expr v | ReturnStmt v => [v]
  | For _ iter _ => [iter]
  | While test _ | If test _ _ => [test]
  | With context _ _ => [context]
  | ClassDef _ bases _ => bases
  | _ => []
  end.

Definition stmts_of (c : cell) : list stmt := flat_map substmts c.
Definition exprs_of (c : cell) : list expr :=
  flat_map subexprs (flat_map own_exprs (stmts_of c)).

(** Functions and classes a cell defines ([def], [class], [lambda]). *)
Definition definitions (c : cell) : list string :=
  flat_map (fun s => match s with
                     | FunctionDef name _ _ | ClassDef name _ _ => [name]
                     | _ => []
                     end) (stmts_of c)
  ++ flat_map (fun e => match e with
                        | Lambda _ _ => ["<lambda>"]
                        | _ => []
                        end) (exprs_of c).

(** Places where a cell chooses between paths: [if], [while], [try],
    conditional expressions, [and]/[or], comparisons, comprehension
    filters. *)
Definition branches (c : cell) : list string :=
  flat_map (fun s => match s with
                     | If _ _ _ => ["if"]
                     | While _ _ => ["while"]
                     | Try _ _ _ => ["try"]
                     | _ => []
                     end) (stmts_of c)
  ++ flat_map (fun e => match e with
                        | IfExp _ _ _ => ["if-expression"]
                        | BoolOp op _ => [op]
                        | Compare _ op _ => [op]
                        | ListComp _ _ _ (_ :: _) => ["comprehension-if"]
                        | _ => []
                        end) (exprs_of c).

(** What the [for] loops and comprehensions of a cell iterate over. *)
Definition loop_iterables (c : cell) : list expr :=
  flat_map (fun s => match s with
                     | For _ iter _ => [iter]
                     | _ => []
                     end) (stmts_of c)
  ++ flat_map (fun e => match e with
                        | ListComp _ _ iter _ => [iter]
                        | _ => []
                        end) (exprs_of c).

(** The lists of raw inputs: [urls] and [os.listdir(src_files)]. *)
Definition is_input_list (e : expr) : bool :=
  match e with
  | Name id => String.eqb id "urls"
  | Call (Attribute (Name m) f) [Name a] [] =>
      String.eqb m "os" && String.eqb f "listdir" && String.eqb a "src_files"
  | _ => false
  end.

(** Names a cell brings in from a library. *)
Definition imported (c : cell) : list string :=
  flat_map (fun s => match s with
                     | Import name => [name]
                     | ImportFrom _ names => names
                     | _ => []
                     end) (stmts_of c).

Definition builtins : list string := ["print"; "open"; "round"; "len"].

(** The name at the head of what is called: [kg] in
    [kg.process_sources(sources)], [json] in [json.dumps(...)]. *)
Fixpoint root (e : expr) : option string :=
  match e with
  | Name id => Some id
  | Attribute v _ | Subscript v _ | Call v _ _ => root v
  | _ => None
  end.

Definition call_roots (c : cell) : list (option string) :=
  flat_map (fun e => match e with
                     | Call f _ _ => [root f]
                     | _ => []
                     end) (exprs_of c).

(** Names a cell binds to a value whose methods are the library's: the
    result of a call, a list, or what a [with] statement opens. *)
Definition library_values (c : cell) : list string :=
  flat_map (fun s => match s with
                     | Assign (Name id) (Call _ _ _)
                     | Assign (Name id) (ListLit _)
                     | Assign (Name id) (ListComp _ _ _ _)
                     | With _ id _ => [id]
                     | _ => []
                     end) (stmts_of c).

(** Statements other than those of a sequence of settings and calls:
    everything but a shell line, an import, an assignment, a call standing
    alone, a [for] loop and a [with] block. *)
Definition other_statements (c : cell) : list stmt :=
  flat_map (fun s => match s with
                     | Shell _ | Import _ | ImportFrom _ _ | Assign _ _
                     | Expr _ | For _ _ _ | With _ _ _ => []
                     | _ => [s]
                     end) (stmts_of c).

(** The operators a cell applies itself: binary operators, and those of
    augmented assignments. *)
Definition operators (c : cell) : list expr :=
  flat_map (fun s => match s with
                     | AugAssign target op value => [BinOp target op value]
                     | _ => []
                     end) (stmts_of c)
  ++ flat_map (fun e => match e with
                        | BinOp _ _ _ => [e]
                        | _ => []
                        end) (exprs_of c).

(** *** The movies notebook *)

Definition kw (name : string) (value : expr) : string * expr := (name, value).

Definition print_answer : stmt :=
  Expr (Call (Name "print")
    [JoinedStr [Str "Q: "; Subscript (Name "answer") (Str "question");
                Str " \nA: "; Subscript (Name "answer") (Str "response");
                Str "\n"]] []).

Definition ask (question : string) : stmt :=
  Assign (Name "answer")
    (Call (Attribute (Name "chat") "send_message") [Str question] []).

Definition movies_cells : list cell :=
  [ [ Shell "pip install graphrag_sdk[litellm]" ];
    [ Import "os";
      Import "logging";
      ImportFrom "dotenv" ["load_dotenv"];
      ImportFrom "graphrag_sdk.source" ["URL"];
      ImportFrom "graphrag_sdk" ["KnowledgeGraph"; "Ontology"];
      ImportFrom "graphrag_sdk.models.litellm" ["LiteModel"];
      ImportFrom "graphrag_sdk.model_config" ["KnowledgeGraphModelConfig"];
      Expr (Call (Name "load_dotenv") [] []);
      Expr (Call (Attribute (Name "logging") "disable")
              [Attribute (Name "logging") "CRITICAL"] []) ];
    [ Assign (Subscript (Attribute (Name "os") "environ") (Str "GEMINI_API_KEY"))
        (Str EmptyString);
      Assign (Name "falkor_host") (Str EmptyString);
      Assign (Name "falkor_port") NoneLit;
      Assign (Name "falkor_username") (Str EmptyString);
      Assign (Name "falkor_password") (Str EmptyString) ];
    [ Assign (Name "urls") (ListLit (Str <$> SourceLoader.urls));
      Assign (Name "sources")
        (ListComp (Call (Name "URL") [Name "url"] []) "url" (Name "urls") []) ];
    [ Assign (Name "model")
        (Call (Name "LiteModel") [] [kw "model_name" (Str "gemini/gemini-2.0-flash")]);
      Assign (Name "boundaries") (Str "
    Extract only the most relevant information about all the movies, actors, and directors over the text.
    Avoid creating entities for details that can be expressed as attributes.
");
      Assign (Name "ontology")
        (Call (Attribute (Name "Ontology") "from_sources") []
           [kw "sources" (Name "sources");
            kw "boundaries" (Name "boundaries");
            kw "model" (Name "model")]) ];
    [ Assign (Name "kg")
        (Call (Name "KnowledgeGraph") []
           [kw "name" (Str "movies");
            kw "model_config"
              (Call (Attribute (Name "KnowledgeGraphModelConfig") "with_model")
                 [Name "model"] []);
            kw "ontology" (Name "ontology");
            kw "host" (Name "falkor_host");
            kw "port" (Name "falkor_port");
            kw "username" (Name "falkor_username");
            kw "password" (Name "falkor_password")]);
      Expr (Call (Attribute (Name "kg") "process_sources") [Name "sources"] []) ];
    [ Assign (Name "chat") (Call (Attribute (Name "kg") "chat_session") [] []);
      ask "Who is the director of the movie The Matrix?";
      print_answer;
      ask "How this director connected to Keanu Reeves?";
      print_answer;
      ask "Who is the director of the movie Side by Side?";
      print_answer;
      ask "Order the directors that you mentioned in all of our conversation by lexical order.";
      print_answer ] ].

(** *** The UFC notebook *)

Definition ontology_to_json : expr :=
  Call (Attribute (Name "ontology") "to_json") [] [].

Definition ufc_cells : list cell :=
  [ [ Shell "pip install graphrag_sdk[openai]" ];
    [ Import "os";
      Import "json";
      Import "random";
      ImportFrom "dotenv" ["load_dotenv"];
      ImportFrom "graphrag_sdk.source" ["Source"];
      ImportFrom "graphrag_sdk" ["KnowledgeGraph"; "Ontology"];
      ImportFrom "graphrag_sdk.models.openai" ["OpenAiGenerativeModel"];
      ImportFrom "graphrag_sdk.model_config" ["KnowledgeGraphModelConfig"];
      Expr (Call (Name "load_dotenv") [] []) ];
    [ Assign (Name "src_files") (Str SourceLoader.src_files);
      Assign (Name "sources") (ListLit []);
      For "file" (Call (Attribute (Name "os") "listdir") [Name "src_files"] [])
        [ Expr (Call (Attribute (Name "sources") "append")
                  [Call (Name "Source")
                     [Call (Attribute (Attribute (Name "os") "path") "join")
                        [Name "src_files"; Name "file"] []] []] []) ] ];
    [ Assign (Name "percent") (Num "0.1");
      Assign (Name "boundaries") (Str Sampling.boundaries);
      Assign (Name "model")
        (Call (Name "OpenAiGenerativeModel") [] [kw "model_name" (Str "gpt-4o")]);
      Assign (Name "sampled_sources")
        (Call (Attribute (Name "random") "sample")
           [Name "sources";
            Call (Name "round")
              [BinOp (Call (Name "len") [Name "sources"] []) "*" (Name "percent")]
              []] []);
      Assign (Name "ontology")
        (Call (Attribute (Name "Ontology") "from_sources") []
           [kw "sources" (Name "sampled_sources");
            kw "boundaries" (Name "boundaries");
            kw "model" (Name "model")]);
      With (Call (Name "open") [Str "ontology.json"; Str "w"]
              [kw "encoding" (Str "utf-8")]) "file"
        [ Expr (Call (Attribute (Name "file") "write")
                  [Call (Attribute (Name "json") "dumps") [ontology_to_json]
                     [kw "indent" (Num "2")]] []) ] ];
    [ Expr (Call (Name "print")
              [Call (Attribute (Name "json") "dumps") [ontology_to_json]
                 [kw "indent" (Num "4")]] []) ];
    [ Assign (Name "ontology_file") (Str "ontology.json");
      With (Call (Name "open") [Name "ontology_file"; Str "r"]
              [kw "encoding" (Str "utf-8")]) "file"
        [ Assign (Name "ontology")
            (Call (Attribute (Name "Ontology") "from_json")
               [Call (Attribute (Name "json") "loads")
                  [Call (Attribute (Name "file") "read") [] []] []] []) ];
      Assign (Name "kg")
        (Call (Name "KnowledgeGraph") []
           [kw "name" (Str "ufc");
            kw "model_config"
              (Call (Attribute (Name "KnowledgeGraphModelConfig") "with_model")
                 [Name "model"] []);
            kw "ontology" (Name "ontology")]);
      Expr (Call (Attribute (Name "kg") "process_sources") [Name "sources"] []) ];
    [ Assign (Name "chat") (Call (Attribute (Name "kg") "chat_session") [] []);
      Assign (Name "response")
        (Call (Attribute (Name "chat") "send_message") [Str "Who is Salsa Boy?"] []);
      Expr (Call (Name "print") [Name "response"] []);
      Assign (Name "response")
        (Call (Attribute (Name "chat") "send_message")
           [Str "Tell me about one of his fights?"] []);
      Expr (Call (Name "print") [Name "response"] []) ] ].

(** Every code cell of the repository. *)
Definition code_cells : list cell := movies_cells ++ ufc_cells.

(** The names whose calls go to a library: the built-in functions, what
    the notebooks import, and the values they got from a library. *)
Definition known_names : list string :=
  builtins ++ flat_map imported code_cells ++ flat_map library_values code_cells.

Definition external_call (r : option string) : bool :=
  match r with
  | Some id => bool_decide (id ∈ known_names)
  | None => false
  end.

(** A cell that is a straight-line sequence of settings and library calls:
    it defines nothing, takes no branch, has no statement of another kind,
    loops only over a list of raw inputs and calls only into libraries. *)
Definition straight_line (c : cell) : Prop :=
  definitions c = [] /\
  branches c = [] /\
  other_statements c = [] /\
  Forall (fun iter => is_input_list iter = true) (loop_iterables c) /\
  Forall (fun r => external_call r = true) (call_roots c).

(** A cell with no computation of its own: straight-line, and applying no
    operator. *)
Definition plain_cell (c : cell) : Prop :=
  straight_line c /\ operators c = [].

Definition straight_lineb (c : cell) : bool :=
  bool_decide (definitions c = []) &&
  bool_decide (branches c = []) &&
  bool_decide (other_statements c = []) &&
  forallb is_input_list (loop_iterables c) &&
  forallb external_call (call_roots c).

Definition plain_cellb (c : cell) : bool :=
  straight_lineb c && bool_decide (operators c = []).

Lemma straight_lineb_spec (c : cell) : straight_lineb c = true <-> straight_line c.
Proof.
  unfold straight_lineb, straight_line.
  rewrite !andb_true_iff, !bool_decide_eq_true, !forallb_forall, !Forall_forall.
  split.
  - intros [[[[H1 H2] H3] H4] H5]. repeat split; try done.
    + intros x Hx. apply H4. by apply list_elem_of_In.
    + intros x Hx. apply H5. by apply list_elem_of_In.
  - intros (H1 & H2 & H3 & H4 & H5). repeat split; try done.
    + intros x Hx. apply H4. by apply list_elem_of_In.
    + intros x Hx. apply H5. by apply list_elem_of_In.
Qed.

Lemma plain_cellb_spec (c : cell) : plain_cellb c = true <-> plain_cell c.
Proof.
  unfold plain_cellb, plain_cell.
  by rewrite andb_true_iff, straight_lineb_spec, bool_decide_eq_true.
Qed.

Example loops_of_the_notebooks :
  flat_map loop_iterables code_cells =
  [ Name "urls";
    Call (Attribute (Name "os") "listdir") [Name "src_files"] [] ].
Proof. vm_compute. reflexivity. Qed.

(** The checks do see what they look for: a cell with a helper function,
    a test and a loop over something else is not straight-line, and
    neither is one that calls a number or changes a setting in place; a
    cell of arithmetic is straight-line but not plain. *)
Example own_logic_is_seen :
  straight_lineb
    [ FunctionDef "pick" ["xs"]
        [ If (Compare (Call (Name "len") [Name "xs"] []) ">" (Num "5"))
            [ReturnStmt (Name "xs")] [ReturnStmt (ListLit [])] ];
      For "x" (Call (Name "range") [Num "3"] []) [Expr (Call (Name "pick") [Name "x"] [])] ]
  = false /\
  straight_lineb
    [ Expr (Call (Name "percent") [Num "3"] []);
      AugAssign (Name "percent") "*" (Num "2") ]
  = false /\
  straight_lineb
    [ Assign (Name "k")
        (BinOp (BinOp (Call (Name "len") [Name "sources"] []) "*" (Name "percent"))
               "+" (BinOp (Num "3") "**" (Num "2"))) ]
  = true /\
  plain_cellb
    [ Assign (Name "k")
        (BinOp (BinOp (Call (Name "len") [Name "sources"] []) "*" (Name "percent"))
               "+" (BinOp (Num "3") "**" (Num "2"))) ]
  = false.
Proof. vm_compute. done. Qed.

(** [len(sources) * percent], the product that cell 4 of the UFC notebook
    rounds to get the size of the sample. *)
Definition sample_size_product : expr :=
  BinOp (Call (Name "len") [Name "sources"] []) "*" (Name "percent").

(** Cell 4 of the UFC notebook is the eleventh code cell of the
    repository. *)
Definition sampling_cell : nat := 10.

Example sampling_cell_is_cell_4 : code_cells !! sampling_cell = ufc_cells !! 3%nat.
Proof. reflexivity. Qed.

(** Not every code cell is free of computation of its own: cell 4 of the
    UFC notebook multiplies the number of sources by [percent]. *)
Lemma sampling_cell_computes : ~ Forall plain_cell code_cells.
Proof.
  intros Hall. rewrite Forall_lookup in Hall.
  destruct (Hall sampling_cell _ eq_refl) as [_ Hops].
  vm_compute in Hops. discriminate Hops.
Qed.

(** C7, as amended. Every code cell of the two notebooks is a straight-line
    sequence of settings and calls into the SDK and the standard library:
    none defines a function, a class or a lambda, none has a branch ([if],
    [while], [try], conditional expression, boolean operator, comparison or
    comprehension filter) or a statement other than a shell line, an
    import, an assignment, a call, a [for] loop or a [with] block, every
    loop, the one [for] and the one comprehension, runs over a list of raw
    inputs ([os.listdir(src_files)], [urls]), and every call goes to a
    built-in function, an imported name or a value returned by a library.
    The one computation that the notebooks do themselves is the product
    [len(sources) * percent] in cell 4 of the UFC notebook, the only
    operator applied in any cell; every other cell computes nothing of its
    own. *)
Theorem notebooks_compute_only_the_sample_size :
  Forall straight_line code_cells /\
  flat_map operators code_cells = [sample_size_product] /\
  operators (ufc_cells !!! 3%nat) = [sample_size_product] /\
  Forall plain_cell (delete sampling_cell code_cells).
Proof.
  assert (Hline : forallb straight_lineb code_cells = true)
    by (vm_compute; reflexivity).
  assert (Hplain : forallb plain_cellb (delete sampling_cell code_cells) = true)
    by (vm_compute; reflexivity).
  rewrite forallb_forall in Hline, Hplain.
  split; [|split; [vm_compute; reflexivity|split; [vm_compute; reflexivity|]]].
  - apply Forall_forall. intros c Hc. apply straight_lineb_spec, Hline.
    by apply list_elem_of_In.
  - apply Forall_forall. intros c Hc. apply plain_cellb_spec, Hplain.
    by apply list_elem_of_In.
Qed.

End Notebook.

(** ** The ontology (UFC notebook, cells 4 to 6) *)

Module Ontology.

(** The data model, as the JSON that cell 5 prints lays it out: an ontology
    has entities and relations; an entity has a label, attributes and a
    description; a relation has a label, a source and a target entity
    label, and attributes; an attribute has a name, a type and the flags
    [unique] and [required]. *)

Record Attribute : Type := {
  name : string;
  type : string;
  unique : bool;
  required : bool
}.

Record Entity : Type := {
  entity_label : string;
  entity_attributes : list Attribute;
  description : string
}.

Record Relation : Type := {
  label : string;
  source : string;
  target : string;
  attributes : list Attribute
}.

Record Ontology : Type := {
  entities : list Entity;
  relations : list Relation
}.

#[global] Instance Attribute_eq_dec : EqDecision Attribute.
Proof. solve_decision. Defined.
#[global] Instance Entity_eq_dec : EqDecision Entity.
Proof. solve_decision. Defined.
#[global] Instance Relation_eq_dec : EqDecision Relation.
Proof. solve_decision. Defined.
#[global] Instance Ontology_eq_dec : EqDecision Ontology.
Proof. solve_decision. Defined.

Definition attr (name type : string) (unique required : bool) : Attribute :=
  {| name := name; type := type; unique := unique; required := required |}.

(** The ontology that [Ontology.from_sources] returned in the recorded run
    of the UFC notebook: the output of cell 5,
    [print(json.dumps(ontology.to_json(), indent=4))]. *)
Definition ufc_ontology : Ontology := {|
  entities := [
    {| entity_label := "Person";
       entity_attributes := [
         attr "name" "string" true true;
         attr "nickname" "string" false false ];
       description := EmptyString |};
    {| entity_label := "FightEvent";
       entity_attributes := [
         attr "name" "string" true true;
         attr "date" "string" false true;
         attr "location" "string" false true ];
       description := EmptyString |};
    {| entity_label := "Bout";
       entity_attributes := [
         attr "weight_class" "string" false true;
         attr "method" "string" false true;
         attr "round" "number" false true;
         attr "time" "string" false true;
         attr "time_format" "string" false true;
         attr "referee" "string" false false ];
       description := EmptyString |} ];
  relations := [
    {| label := "FOUGHT_IN";
       source := "Person";
       target := "Bout";
       attributes := [
         attr "result" "string" false true;
         attr "knockdowns" "number" false false;
         attr "significant_strikes" "number" false false;
         attr "significant_strikes_attempted" "number" false false;
         attr "significant_strikes_percentage" "string" false false;
         attr "total_strikes" "number" false false;
         attr "total_strikes_attempted" "number" false false;
         attr "takedowns" "number" false false;
         attr "takedowns_attempted" "number" false false;
         attr "takedown_percentage" "string" false false;
         attr "submissions_attempted" "number" false false;
         attr "passes" "number" false false;
         attr "reversals" "number" false false ] |};
    {| label := "PART_OF_EVENT";
       source := "Bout";
       target := "FightEvent";
       attributes := [] |};
    {| label := "PART_OF";
       source := "Bout";
       target := "FightEvent";
       attributes := [] |} ]
|}.

(** Two relation schemas duplicate one another when they lead from the same
    entity type to the same entity type and carry the same attributes, so
    that only the label tells them apart. *)
Definition duplicates (r1 r2 : Relation) : Prop :=
  source r1 = source r2 /\ target r1 = target r2 /\
  attributes r1 = attributes r2.

#[global] Instance duplicates_dec (r1 r2 : Relation) : Decision (duplicates r1 r2).
Proof. unfold duplicates. apply _. Defined.

(** No two relation schemas of the ontology, at different places of its
    list of relations, duplicate one another. *)
Definition no_duplicate_relations (o : Ontology) : Prop :=
  forall (i j : nat) (r1 r2 : Relation),
    relations o !! i = Some r1 -> relations o !! j = Some r2 ->
    i <> j -> ~ duplicates r1 r2.

Definition entity_labels (o : Ontology) : list string :=
  entity_label <$> entities o.

(** The ontology of the recorded run does have relation schemas that
    duplicate one another: those at places 1 and 2 of its list,
    [PART_OF_EVENT] and [PART_OF], both lead from [Bout] to [FightEvent] and
    have no attributes. *)
Lemma ufc_ontology_has_duplicate_relations :
  ~ no_duplicate_relations ufc_ontology.
Proof.
  intros Hno.
  apply (Hno 1 2
           {| label := "PART_OF_EVENT"; source := "Bout";
              target := "FightEvent"; attributes := [] |}
           {| label := "PART_OF"; source := "Bout";
              target := "FightEvent"; attributes := [] |});
    [reflexivity|reflexivity|lia|].
  by repeat split.
Qed.

(** *** Merging proposals

    Modelled from the spec: [Ontology.from_sources] belongs to the SDK and
    is not among the sources; cell 4 only calls it.  The spec describes the
    Ontology Inferencer as the component that "prompts a language model to
    propose entity/relation schema, validates and merges proposals into a
    single ontology".  Here the language model is a function [propose] from
    a document to a proposal and validation a test [valid] on proposals,
    both left open; merging takes the valid proposals one after the other
    and adds their entity types and relation types to the ontology, where a
    type that is already there (an entity type of that label, a relation
    type of that label between the same two entity types) only gains the
    attributes it does not have yet. *)

(** What a relation type is known by.  The recorded run keeps [PART_OF]
    next to [PART_OF_EVENT], so the two ends alone do not identify it. *)
Definition relation_key (r : Relation) : string * string * string :=
  (label r, source r, target r).

Definition relation_keys (o : Ontology) : list (string * string * string) :=
  relation_key <$> relations o.

(** The attributes of [new] that [old] does not have by name, added after
    those of [old]. *)
Definition merge_attributes (old new : list Attribute) : list Attribute :=
  fold_left
    (fun acc a => if decide (name a ∈ name <$> acc) then acc else acc ++ [a])
    new old.

Definition combine_entity (old new : Entity) : Entity :=
  {| entity_label := entity_label old;
     entity_attributes :=
       merge_attributes (entity_attributes old) (entity_attributes new);
     description := description old |}.

Definition combine_relation (old new : Relation) : Relation :=
  {| label := label old;
     source := source old;
     target := target old;
     attributes := merge_attributes (attributes old) (attributes new) |}.

Section Keyed.

Context {T K : Type} `{EqDecision K}.
Variable key : T -> K.
Variable combine : T -> T -> T.
Hypothesis key_combine : forall old new : T, key (combine old new) = key old.

(** Adding one item: combined with the item of its key, or put last. *)
Fixpoint add_type (x : T) (xs : list T) : list T :=
  match xs with
  | [] => [x]
  | y :: rest =>
      if decide (key y = key x) then combine y x :: rest
      else y :: add_type x rest
  end.

Definition add_types (xs news : list T) : list T :=
  fold_left (fun acc x => add_type x acc) news xs.

Lemma keys_add (x : T) (xs : list T) :
  key <$> add_type x xs =
  if decide (key x ∈ key <$> xs) then key <$> xs else (key <$> xs) ++ [key x].
Proof.
  induction xs as [|y rest IH].
  - cbn [add_type fmap list_fmap app].
    destruct (decide (key x ∈ [])) as [Hin|_]; [|done].
    by apply elem_of_nil in Hin.
  - cbn [add_type]. rewrite fmap_cons.
    destruct (decide (key y = key x)) as [Heq|Hne].
    + rewrite fmap_cons, key_combine.
      destruct (decide (key x ∈ key y :: (key <$> rest))) as [_|Hin]; [done|].
      exfalso. apply Hin. rewrite Heq. apply list_elem_of_here.
    + rewrite fmap_cons, IH.
      destruct (decide (key x ∈ key <$> rest)) as [Hin|Hnin];
        destruct (decide (key x ∈ key y :: (key <$> rest))) as [Hin'|Hnin'];
        try done.
      * exfalso. apply Hnin'. by apply list_elem_of_further.
      * exfalso. apply elem_of_cons in Hin' as [Heq|Hin']; [by symmetry in Heq|done].
Qed.

Lemma NoDup_keys_add (x : T) (xs : list T) :
  NoDup (key <$> xs) -> NoDup (key <$> add_type x xs).
Proof.
  intros Hxs. rewrite keys_add. case_decide; [done|].
  apply NoDup_app. split; [done|]. split; [|apply NoDup_singleton].
  intros k Hk Hk'. apply list_elem_of_singleton in Hk'. by subst k.
Qed.

Lemma elem_of_keys_add (k : K) (x : T) (xs : list T) :
  k ∈ key <$> add_type x xs <-> k ∈ key <$> xs \/ k = key x.
Proof.
  rewrite keys_add. case_decide as Hin.
  - split; [by left|]. intros [?|Heq]; [done|by subst k].
  - rewrite elem_of_app, list_elem_of_singleton. done.
Qed.

Lemma NoDup_keys_add_all (news xs : list T) :
  NoDup (key <$> xs) -> NoDup (key <$> add_types xs news).
Proof.
  revert xs. induction news as [|x news IH]; intros xs Hxs; [done|].
  change (add_types xs (x :: news)) with (add_types (add_type x xs) news).
  apply IH. by apply NoDup_keys_add.
Qed.

Lemma elem_of_keys_add_all (k : K) (news xs : list T) :
  k ∈ key <$> add_types xs news <-> k ∈ key <$> xs \/ k ∈ key <$> news.
Proof.
  revert xs. induction news as [|x news IH]; intros xs.
  - simpl. split; [by left|]. intros [?|Hin]; [done|]. by apply elem_of_nil in Hin.
  - change (add_types xs (x :: news)) with (add_types (add_type x xs) news).
    rewrite IH, elem_of_keys_add, fmap_cons, elem_of_cons. tauto.
Qed.

End Keyed.

Definition add_entities : list Entity -> list Entity -> list Entity :=
  add_types entity_label combine_entity.

Definition add_relations : list Relation -> list Relation -> list Relation :=
  add_types relation_key combine_relation.

(** The ontology [o] with the proposal [p] merged into it. *)
Definition merge (o p : Ontology) : Ontology :=
  {| entities := add_entities (entities o) (entities p);
     relations := add_relations (relations o) (relations p) |}.

Definition empty_ontology : Ontology := {| entities := []; relations := [] |}.

(** The proposals that [from_sources] merges: one per document, the valid
    ones. *)
Definition proposals {A : Type} (propose : A -> Ontology)
    (valid : Ontology -> bool) (sources : list A) : list Ontology :=
  List.filter valid (propose <$> sources).

(** [Ontology.from_sources(sources=..., boundaries=..., model=...)] *)
Definition from_sources {A : Type} (propose : A -> Ontology)
    (valid : Ontology -> bool) (sources : list A) : Ontology :=
  fold_left merge (proposals propose valid sources) empty_ontology.

Definition distinct_types (o : Ontology) : Prop :=
  NoDup (entity_labels o) /\ NoDup (relation_keys o).

Lemma merge_distinct (o p : Ontology) : distinct_types o -> distinct_types (merge o p).
Proof.
  intros [He Hr]. split.
  - by apply (NoDup_keys_add_all entity_label combine_entity).
  - by apply (NoDup_keys_add_all relation_key combine_relation).
Qed.

Lemma merge_relation_keys (k : string * string * string) (o p : Ontology) :
  k ∈ relation_keys (merge o p) <-> k ∈ relation_keys o \/ k ∈ relation_keys p.
Proof. by apply (elem_of_keys_add_all relation_key combine_relation). Qed.

Lemma merge_entity_labels (l : string) (o p : Ontology) :
  l ∈ entity_labels (merge o p) <-> l ∈ entity_labels o \/ l ∈ entity_labels p.
Proof. by apply (elem_of_keys_add_all entity_label combine_entity). Qed.

Lemma fold_merge_distinct (ps : list Ontology) (o : Ontology) :
  distinct_types o -> distinct_types (fold_left merge ps o).
Proof.
  revert o. induction ps as [|p ps IH]; intros o Ho; simpl; [done|].
  by apply IH, merge_distinct.
Qed.

Lemma fold_merge_relation_keys (k : string * string * string)
    (ps : list Ontology) (o : Ontology) :
  k ∈ relation_keys (fold_left merge ps o) <->
  k ∈ relation_keys o \/ exists p : Ontology, p ∈ ps /\ k ∈ relation_keys p.
Proof.
  revert o. induction ps as [|p ps IH]; intros o; simpl.
  - split; [by left|]. intros [?|(p & Hp & _)]; [done|]. by apply elem_of_nil in Hp.
  - rewrite IH, merge_relation_keys. split.
    + intros [[?|?]|(p' & Hp' & ?)]; [by left| |].
      * right. exists p. split; [apply list_elem_of_here|done].
      * right. exists p'. split; [by apply list_elem_of_further|done].
    + intros [?|(p' & Hp' & ?)]; [by left; left|].
      apply elem_of_cons in Hp' as [->|Hp']; [by left; right|].
      right. by exists p'.
Qed.

Lemma elem_of_proposals {A : Type} (propose : A -> Ontology)
    (valid : Ontology -> bool) (sources : list A) (p : Ontology) :
  p ∈ proposals propose valid sources <->
  exists doc : A, doc ∈ sources /\ p = propose doc /\ valid p = true.
Proof.
  unfold proposals. rewrite list_elem_of_In, filter_In, <- list_elem_of_In.
  rewrite list_elem_of_fmap. split.
  - intros [(doc & -> & Hdoc) Hv]. by exists doc.
  - intros (doc & Hdoc & -> & Hv). split; [by exists doc|done].
Qed.

(** A run of the model that returns the ontology of the recorded run: one
    document, for which the language model proposes it. *)
Example recorded_run_in_the_model :
  from_sources (fun _ : SourceLoader.source => ufc_ontology) (fun _ => true)
    [SourceLoader.Source "examples/ufc/data/fight/a.html"]
  = ufc_ontology.
Proof. vm_compute. reflexivity. Qed.

(** C1, as amended. For every run of [Ontology.from_sources], whatever the
    language model proposes for the documents and whatever validation lets
    through, the valid proposals are merged into one ontology in which no
    two entity types have the same label and no two relation types have
    the same label, source entity type and target entity type, and whose
    relation types are those of the valid proposals, none lost and none
    added.  Relation types between the same two entity types that differ
    in label, such as [PART_OF_EVENT] and [PART_OF] from [Bout] to
    [FightEvent], are kept side by side. *)
Theorem from_sources_relation_types_distinct {A : Type}
    (propose : A -> Ontology) (valid : Ontology -> bool) (sources : list A) :
  let o := from_sources propose valid sources in
  NoDup (entity_labels o) /\
  NoDup (relation_keys o) /\
  forall k : string * string * string,
    k ∈ relation_keys o <->
    exists doc : A,
      doc ∈ sources /\ valid (propose doc) = true /\
      k ∈ relation_keys (propose doc).
Proof.
  intros o.
  destruct (fold_merge_distinct (proposals propose valid sources) empty_ontology)
    as [He Hr].
  { split; apply NoDup_nil_2. }
  split; [done|]. split; [done|].
  intros k. unfold o, from_sources. rewrite fold_merge_relation_keys. split.
  - intros [Hin|(p & Hp & Hk)]; [by apply elem_of_nil in Hin|].
    apply elem_of_proposals in Hp as (doc & Hdoc & -> & Hv). by exists doc.
  - intros (doc & Hdoc & Hv & Hk). right. exists (propose doc).
    split; [|done]. apply elem_of_proposals. by exists doc.
Qed.

End Ontology.

(** ** The knowledge graph (cell 6 of both notebooks)

    Modelled from the spec: [KnowledgeGraph], its [process_sources] and the
    graph store belong to the SDK and are not among the sources; the
    notebooks only call them.  The spec describes the Graph Builder as the
    component that "extracts entities/relations per document according to
    the ontology and writes them idempotently into a graph store".  Here the
    store keeps one node per entity identity and one edge per relation
    identity, a write adds the item or, when it is already there, lays its
    properties over the stored ones, and the extraction done by the language
    model is a function [extract] of the model configuration: the same
    document under the same ontology yields the same items. *)

Module KnowledgeGraph.

(** A node is identified by its label and key, an edge by its label and
    the nodes it joins. *)
Definition node_id : Type := string * string.
Definition edge_id : Type := string * node_id * node_id.

Record Graph : Type := {
  nodes : gmap node_id (gmap string string);
  edges : gmap edge_id (gmap string string)
}.

Definition empty_graph : Graph := {| nodes := ∅; edges := ∅ |}.

Record EntityData : Type := {
  e_label : string;
  e_key : string;
  e_props : gmap string string
}.

Record RelationData : Type := {
  r_label : string;
  r_source : node_id;
  r_target : node_id;
  r_props : gmap string string
}.

(** One question and its answer, as a session remembers them. *)
Record Turn : Type := {
  asked : string;
  answered : string
}.

(** What [KnowledgeGraphModelConfig.with_model(model)] stands for: the
    language model in its three roles, named after the spec's verbs. *)
Record ModelConfig : Type := {
  extract : Ontology.Ontology -> SourceLoader.source ->
            list EntityData * list RelationData;
  translate : Ontology.Ontology -> list Turn -> string -> string;
  compose : list Turn -> string -> string -> string -> string
}.

(** [KnowledgeGraph(name=..., model_config=..., ontology=...)] *)
Record KnowledgeGraph : Type := {
  name : string;
  model_config : ModelConfig;
  ontology : Ontology.Ontology;
  graph : Graph
}.

(** Adding an item under [id], or laying its properties over those stored
    under [id]. *)
Definition upsert `{Countable K} (id : K) (p : gmap string string)
    (m : gmap K (gmap string string)) : gmap K (gmap string string) :=
  partial_alter (fun old => Some (p ∪ default ∅ old)) id m.

Definition write_entity (e : EntityData) (g : Graph) : Graph :=
  {| nodes := upsert (e_label e, e_key e) (e_props e) (nodes g);
     edges := edges g |}.

Definition write_relation (r : RelationData) (g : Graph) : Graph :=
  {| nodes := nodes g;
     edges := upsert (r_label r, r_source r, r_target r) (r_props r) (edges g) |}.

(** "According to the ontology": an entity is kept when its label is an
    entity type, a relation when the ontology has a relation type of its
    label between the labels of its two ends. *)
Definition entity_conforms (o : Ontology.Ontology) (e : EntityData) : Prop :=
  e_label e ∈ Ontology.entity_labels o.

Definition relation_conforms (o : Ontology.Ontology) (r : RelationData) : Prop :=
  Exists (fun s => Ontology.label s = r_label r /\
                   Ontology.source s = (r_source r).1 /\
                   Ontology.target s = (r_target r).1)
         (Ontology.relations o).

#[global] Instance entity_conforms_dec (o : Ontology.Ontology) (e : EntityData) :
  Decision (entity_conforms o e).
Proof. unfold entity_conforms. apply _. Defined.

#[global] Instance relation_conforms_dec (o : Ontology.Ontology) (r : RelationData) :
  Decision (relation_conforms o r).
Proof. unfold relation_conforms. apply _. Defined.

(** One document: extract, keep what conforms, write. *)
Definition process_source (cfg : ModelConfig) (o : Ontology.Ontology)
    (g : Graph) (doc : SourceLoader.source) : Graph :=
  let '(es, rs) := extract cfg o doc in
  let g1 := fold_left (fun g e => write_entity e g)
                      (filter (entity_conforms o) es) g in
  fold_left (fun g r => write_relation r g)
            (filter (relation_conforms o) rs) g1.

(** [kg.process_sources(sources)] *)
Definition process_sources (kg : KnowledgeGraph)
    (sources : list SourceLoader.source) : KnowledgeGraph :=
  {| name := name kg;
     model_config := model_config kg;
     ontology := ontology kg;
     graph := fold_left (process_source (model_config kg) (ontology kg))
                        sources (graph kg) |}.

(** *** Writes as overlays *)

(** [overlay w m]: the items of [w] written over [m]. *)
Definition overlay `{Countable K} (w m : gmap K (gmap string string))
    : gmap K (gmap string string) :=
  union_with (fun new old => Some (new ∪ old)) w m.

Section Overlay.

Context `{Countable K}.
Implicit Types w m : gmap K (gmap string string).

Lemma lookup_overlay w m (i : K) :
  overlay w m !! i = union_with (fun new old => Some (new ∪ old)) (w !! i) (m !! i).
Proof. unfold overlay. apply lookup_union_with. Qed.

Lemma overlay_empty m : overlay ∅ m = m.
Proof.
  apply map_eq. intros i. rewrite lookup_overlay, lookup_empty.
  by destruct (m !! i).
Qed.

Lemma overlay_assoc w1 w2 m : overlay w1 (overlay w2 m) = overlay (overlay w1 w2) m.
Proof.
  apply map_eq. intros i. rewrite !lookup_overlay.
  destruct (w1 !! i), (w2 !! i), (m !! i); simpl; try done.
  by rewrite (assoc_L (∪)).
Qed.

Lemma overlay_idemp w : overlay w w = w.
Proof.
  apply map_eq. intros i. rewrite lookup_overlay.
  destruct (w !! i); simpl; [|done]. by rewrite (idemp_L (∪)).
Qed.

Lemma upsert_overlay (id : K) (p : gmap string string) m :
  upsert id p m = overlay {[id := p]} m.
Proof.
  apply map_eq. intros i. unfold upsert.
  rewrite lookup_overlay, lookup_partial_alter.
  destruct (decide (id = i)) as [->|Hne].
  - rewrite lookup_singleton_eq. destruct (m !! i); simpl; [done|].
    by rewrite (right_id_L ∅ (∪)).
  - rewrite lookup_singleton_ne by done. by destruct (m !! i).
Qed.

End Overlay.

Definition overlay_graph (w g : Graph) : Graph :=
  {| nodes := overlay (nodes w) (nodes g);
     edges := overlay (edges w) (edges g) |}.

(** A step that writes the same items whatever the graph holds. *)
Definition writes_over (f : Graph -> Graph) : Prop :=
  forall w g : Graph, f (overlay_graph w g) = overlay_graph (f w) g.

Lemma overlay_graph_empty (g : Graph) : overlay_graph empty_graph g = g.
Proof. destruct g. unfold overlay_graph. simpl. by rewrite !overlay_empty. Qed.

Lemma overlay_graph_twice (w g : Graph) :
  overlay_graph w (overlay_graph w g) = overlay_graph w g.
Proof.
  unfold overlay_graph. simpl. by rewrite !overlay_assoc, !overlay_idemp.
Qed.

Lemma write_entity_over (e : EntityData) : writes_over (write_entity e).
Proof.
  intros w g. unfold write_entity, overlay_graph. simpl.
  by rewrite !upsert_overlay, overlay_assoc.
Qed.

Lemma write_relation_over (r : RelationData) : writes_over (write_relation r).
Proof.
  intros w g. unfold write_relation, overlay_graph. simpl.
  by rewrite !upsert_overlay, overlay_assoc.
Qed.

Lemma fold_writes_over {A : Type} (step : Graph -> A -> Graph) (items : list A) :
  (forall a : A, writes_over (fun g => step g a)) ->
  writes_over (fun g => fold_left step items g).
Proof.
  intros Hstep. induction items as [|a items IH]; intros w g; simpl; [done|].
  rewrite (Hstep a w g). apply IH.
Qed.

Lemma process_source_over (cfg : ModelConfig) (o : Ontology.Ontology)
    (doc : SourceLoader.source) :
  writes_over (fun g => process_source cfg o g doc).
Proof.
  intros w g. unfold process_source. destruct (extract cfg o doc) as [es rs].
  rewrite (fold_writes_over (fun g e => write_entity e g) _ write_entity_over).
  apply (fold_writes_over (fun g r => write_relation r g) _ write_relation_over).
Qed.

(** A run of [process_sources] lays one and the same graph, the one it
    builds from nothing, over the stored graph. *)
Lemma process_sources_overlay (kg : KnowledgeGraph)
    (sources : list SourceLoader.source) :
  graph (process_sources kg sources) =
  overlay_graph
    (fold_left (process_source (model_config kg) (ontology kg)) sources empty_graph)
    (graph kg).
Proof.
  simpl.
  rewrite <- (overlay_graph_empty (graph kg)) at 1.
  apply (fold_writes_over (process_source (model_config kg) (ontology kg))).
  intros doc. apply process_source_over.
Qed.

(** A run of the model: two documents mention the same fighter, the second
    with a nickname and with a planet, for which the ontology has no entity
    type.  The store ends with one node for the fighter. *)
Definition two_documents_config : ModelConfig :=
  {| extract := fun _ doc =>
       match doc with
       | SourceLoader.Source "a.html" =>
           ([ {| e_label := "Person"; e_key := "Waldo Cortes-Acosta";
                 e_props := {[ "name" := "Waldo Cortes-Acosta" ]} |} ], [])
       | _ =>
           ([ {| e_label := "Person"; e_key := "Waldo Cortes-Acosta";
                 e_props := {[ "nickname" := "Salsa Boy" ]} |};
              {| e_label := "Planet"; e_key := "Mars"; e_props := ∅ |} ], [])
       end;
     translate := fun _ _ question => question;
     compose := fun _ _ _ context => context |}.

Example process_two_documents :
  nodes (graph (process_sources
                  {| name := "ufc"; model_config := two_documents_config;
                     ontology := Ontology.ufc_ontology; graph := empty_graph |}
                  [SourceLoader.Source "a.html"; SourceLoader.Source "b.html"]))
  = {[ ("Person", "Waldo Cortes-Acosta") :=
         {[ "name" := "Waldo Cortes-Acosta"; "nickname" := "Salsa Boy" ]} ]}.
Proof. vm_compute. reflexivity. Qed.

(** C2. For every knowledge graph and every list of sources S, running
    [kg.process_sources(S)] again on the graph that a first run over S has
    populated leaves the knowledge graph, stored graph included, equal to
    what it was after the first run. *)
Theorem process_sources_idempotent (kg : KnowledgeGraph)
    (S : list SourceLoader.source) :
  process_sources (process_sources kg S) S = process_sources kg S.
Proof.
  pose proof (process_sources_overlay (process_sources kg S) S) as Htwice.
  pose proof (process_sources_overlay kg S) as Honce.
  destruct (process_sources (process_sources kg S) S) as [n2 c2 o2 g2] eqn:E2.
  destruct (process_sources kg S) as [n1 c1 o1 g1] eqn:E1.
  unfold process_sources in E2. injection E2 as <- <- <- Hg2.
  simpl in *. f_equal.
  rewrite Htwice, Honce.
  unfold process_sources in E1. injection E1 as <- <- <- Hg1.
  apply overlay_graph_twice.
Qed.

End KnowledgeGraph.

(** ** Chat sessions (cell 7 of both notebooks)

    Modelled from the spec: [kg.chat_session()] and [send_message] belong
    to the SDK and are not among the sources.  The spec describes the
    Conversational Query Engine as the component that "maintains
    per-session dialogue state, translates each natural-language question
    plus prior turns into a graph query, executes it, and composes a
    natural-language answer from the result"; the notebook's recorded
    output shows what [send_message] returns: a dictionary with the keys
    [question], [response], [context] and [cypher], in this order.  The
    language model is the [translate] and [compose] of the knowledge
    graph's model configuration, and the graph database is [run_query],
    which evaluates a query on the stored graph. *)

Module Chat.

Import KnowledgeGraph.

(** A dictionary with string keys and values, in insertion order. *)
Abbreviation dict := (list (string * string)) (only parsing).

(** [d[key]]; [None] stands for [KeyError]. *)
Fixpoint get (key : string) (d : dict) : option string :=
  match d with
  | [] => None
  | (k, v) :: rest => if String.eqb k key then Some v else get key rest
  end.

(** [d.keys()] *)
Definition keys (d : dict) : list string := map fst d.

Record ChatSession : Type := {
  kg : KnowledgeGraph;
  turns : list Turn
}.

(** [chat = kg.chat_session()] *)
Definition chat_session (kg : KnowledgeGraph) : ChatSession :=
  {| kg := kg; turns := [] |}.

Section Session.

(** The graph database evaluating a query on the stored graph. *)
Variable run_query : Graph -> string -> string.

(** [chat.send_message(message)]: the answer and the session afterwards. *)
Definition send_message (chat : ChatSession) (message : string)
    : dict * ChatSession :=
  let cfg := model_config (kg chat) in
  let cypher := translate cfg (ontology (kg chat)) (turns chat) message in
  let context := run_query (graph (kg chat)) cypher in
  let response := compose cfg (turns chat) message cypher context in
  ([ ("question", message); ("response", response);
     ("context", context); ("cypher", cypher) ],
   {| kg := kg chat;
      turns := turns chat ++ [{| asked := message; answered := response |}] |}).

(** Several messages sent one after the other. *)
Fixpoint send_messages (chat : ChatSession) (messages : list string)
    : list dict * ChatSession :=
  match messages with
  | [] => ([], chat)
  | message :: rest =>
      let '(answer, chat') := send_message chat message in
      let '(answers, chat'') := send_messages chat' rest in
      (answer :: answers, chat'')
  end.

End Session.

(** *** The recorded conversations *)

(** The two dictionaries that cell 7 of the UFC notebook printed. *)
Definition ufc_answers : list dict :=
  [ [ ("question", "Who is Salsa Boy?");
      ("response", "Waldo Cortes-Acosta is Salsa Boy.");
      ("context", quoted "[['(:Person{name:`Waldo Cortes-Acosta`,nickname:`Salsa Boy`})']]");
      ("cypher", "MATCH (p:Person) WHERE p.nickname CONTAINS 'Salsa Boy' RETURN p") ];
    [ ("question", "Tell me about one of his fights?");
      ("response", "Waldo Cortes-Acosta, also known as Salsa Boy, fought in a bout at UFC 284: Makhachev vs. Volkanovski, held on February 11, 2023, in Perth, Western Australia, Australia. He won the fight by submission in the second round, at 4:05. In this fight, he displayed impressive skills with 52 significant strikes out of 101 attempted, achieving a 51.49% success rate. He also attempted 4 takedowns, successfully completing 3 for a 75.00% success rate, and attempted 1 submission.");
      ("context", quoted "[['(:Person{name:`Waldo Cortes-Acosta`,nickname:`Salsa Boy`})', '()-[:FOUGHT_IN{knockdowns:0,passes:0,result:`Win`,reversals:0,significant_strikes:52,significant_strikes_attempted:101,significant_strikes_percentage:`51.49%`,submissions_attempted:1,takedown_percentage:`75.00%`,takedowns:3,takedowns_attempted:4,total_strikes:130,total_strikes_attempted:204}]->()', '(:Bout{method:`Submission`,referee:`Osiris Maia`,round:2,time:`4:05`,time_format:`3 Rounds (5-5-5)`,weight_class:`Lightweight`})', '(:FightEvent{date:`2023-02-11`,location:`Perth, Western Australia, Australia`,name:`UFC 284: Makhachev vs. Volkanovski`})']]");
      ("cypher", "MATCH (p:Person)-[f:FOUGHT_IN]->(b:Bout)-[:PART_OF_EVENT]->(e:FightEvent) WHERE p.nickname CONTAINS 'Salsa Boy' RETURN p, f, b, e LIMIT 1") ] ].

(** The messages that cell 7 of the UFC notebook sends. *)
Definition ufc_messages : list string :=
  [ "Who is Salsa Boy?"; "Tell me about one of his fights?" ].

(** The questions and answers that cell 7 of the movies notebook printed
    from [answer['question']] and [answer['response']]. *)
Definition movies_printed : list Turn :=
  [ {| asked := "Who is the director of the movie The Matrix?";
       answered := "Lilly Wachowski and Lana Wachowski are the directors of the movie The Matrix." |};
    {| asked := "How this director connected to Keanu Reeves?";
       answered := "Lilly Wachowski and Lana Wachowski directed movies in which Keanu Reeves acted." |};
    {| asked := "Who is the director of the movie Side by Side?";
       answered := "Christopher Kenneally is the director of the movie Side by Side." |};
    {| asked := "Order the directors that you mentioned in all of our conversation by lexical order.";
       answered := "The directors in lexical order are: Christopher Kenneally, Lana Wachowski, and Lilly Wachowski." |} ].

Definition movies_messages : list string :=
  [ "Who is the director of the movie The Matrix?";
    "How this director connected to Keanu Reeves?";
    "Who is the director of the movie Side by Side?";
    "Order the directors that you mentioned in all of our conversation by lexical order." ].

(** In the recorded runs every answer has the four keys and repeats the
    message under [question]. *)
Example recorded_answers_repeat_the_question :
  map keys ufc_answers =
    [ ["question"; "response"; "context"; "cypher"];
      ["question"; "response"; "context"; "cypher"] ] /\
  map (get "question") ufc_answers = map Some ufc_messages /\
  map asked movies_printed = movies_messages.
Proof. repeat split. Qed.

(** A language model that reads the turns it is given: its query names the
    earlier questions before the new one.  The database echoes the query
    and the answer is the result. *)
Definition recalling_config : ModelConfig :=
  {| extract := fun _ _ => ([], []);
     translate := fun _ turns question =>
       String.concat " " ((asked <$> turns) ++ [question]);
     compose := fun _ _ _ context => context |}.

Definition echo_query (g : Graph) (cypher : string) : string := cypher.

Definition recalling_kg : KnowledgeGraph :=
  {| name := "ufc";
     model_config := recalling_config;
     ontology := Ontology.ufc_ontology;
     graph := empty_graph |}.

(** C4. Chat sessions are stateful across turns: there are a session and a
    question q such that the response to q after earlier [send_message]
    turns differs from the response to q sent as the first turn of a fresh
    session on the same knowledge graph. *)
Theorem chat_sessions_are_stateful :
  exists (run_query : Graph -> string -> string) (kg0 : KnowledgeGraph)
         (earlier : list string) (q : string),
    let later := (send_messages run_query (chat_session kg0) earlier).2 in
    let fresh := chat_session kg0 in
    kg later = kg fresh /\
    get "response" (send_message run_query later q).1 <>
    get "response" (send_message run_query fresh q).1.
Proof.
  exists echo_query, recalling_kg, ["Who is Salsa Boy?"],
         "Tell me about one of his fights?".
  split; [reflexivity|]. vm_compute. discriminate.
Qed.

End Chat.

(** ** JSON text (UFC notebook, cells 4 to 6)

    [json.dumps] and [json.loads] are the standard library's.  The model
    follows CPython's [json.encoder] and [json.decoder] for the values an
    ontology is written as: dictionaries with string keys, lists, strings,
    booleans and [None]; numbers, which such a document does not hold, are
    left out.  A string is a sequence of code points below 256 and a text a
    list of characters. *)

Module Json.

#[local] Unset Elimination Schemes.

Inductive value : Type :=
  | VNone
  | VBool (b : bool)
  | VStr (s : string)
  | VList (items : list value)
  | VDict (items : list (string * value)).

#[local] Set Elimination Schemes.

Definition text : Type := list ascii.

Definition chars (s : string) : text := String.list_ascii_of_string s.

(** *** [json.dumps] *)

Definition hex_digit (n : nat) : ascii :=
  ascii_of_nat (if decide (n < 10) then 48 + n else 87 + n).

(** One character of a string, as [ensure_ascii] writes it: the quote and
    the backslash escaped, everything outside [' '..'~'] as a short escape
    or as [\u00xx]. *)
Definition encode_char (c : ascii) : text :=
  let n := nat_of_ascii c in
  if decide (n = 34) then chars "\" ++ ["034"%char]
  else if decide (n = 92) then chars "\\"
  else if decide (n = 8) then chars "\b"
  else if decide (n = 12) then chars "\f"
  else if decide (n = 10) then chars "\n"
  else if decide (n = 13) then chars "\r"
  else if decide (n = 9) then chars "\t"
  else if decide (n < 32 \/ 126 < n) then
    chars "\u00" ++ [hex_digit (n / 16); hex_digit (n mod 16)]
  else [c].

Definition encode_string (s : string) : text :=
  "034"%char :: flat_map encode_char (chars s) ++ ["034"%char].

(** ['\n' + _indent * _current_indent_level] *)
Definition newline_indent (n level : nat) : text :=
  "010"%char :: repeat " "%char (n * level).

(** What stands after the opening bracket, between two items and before
    the closing bracket of a container at nesting [level]. *)
Definition after_open (indent : option nat) (level : nat) : text :=
  match indent with
  | Some n => newline_indent n (S level)
  | None => []
  end.

Definition between (indent : option nat) (level : nat) : text :=
  match indent with
  | Some n => ","%char :: newline_indent n (S level)
  | None => chars ", "
  end.

Definition before_close (indent : option nat) (level : nat) : text :=
  match indent with
  | Some n => newline_indent n level
  | None => []
  end.

Definition key_separator : text := chars ": ".

Fixpoint encode (indent : option nat) (level : nat) (v : value) : text :=
  match v with
  | VNone => chars "null"
  | VBool true => chars "true"
  | VBool false => chars "false"
  | VStr s => encode_string s
  | VList [] => chars "[]"
  | VList (x :: xs) =>
      "["%char :: after_open indent level
        ++ encode indent (S level) x
        ++ flat_map (fun y => between indent level ++ encode indent (S level) y) xs
        ++ before_close indent level ++ ["]"%char]
  | VDict [] => chars "{}"
  | VDict (kx :: kxs) =>
      "{"%char :: after_open indent level
        ++ encode_string (fst kx) ++ key_separator
        ++ encode indent (S level) (snd kx)
        ++ flat_map (fun ky => between indent level ++ encode_string (fst ky)
                                 ++ key_separator
                                 ++ encode indent (S level) (snd ky)) kxs
        ++ before_close indent level ++ ["}"%char]
  end.

(** [json.dumps(obj, indent=indent)] *)
Definition dumps (indent : option nat) (v : value) : string :=
  String.string_of_list_ascii (encode indent 0 v).

(** *** [json.loads] *)

Definition is_whitespace (c : ascii) : bool :=
  let n := nat_of_ascii c in
  ((n =? 32) || (n =? 9) || (n =? 10) || (n =? 13))%nat.

Fixpoint skip_whitespace (s : text) : text :=
  match s with
  | c :: rest => if is_whitespace c then skip_whitespace rest else s
  | [] => []
  end.

Definition hex_value (c : ascii) : option nat :=
  let n := nat_of_ascii c in
  if decide (48 <= n <= 57) then Some (n - 48)
  else if decide (97 <= n <= 102) then Some (n - 87)
  else if decide (65 <= n <= 70) then Some (n - 55)
  else None.

(** The character that [\uXXXX] stands for; code points from 256 on are not
    characters of the model. *)
Definition decode_uXXXX (a b c d : ascii) : option ascii :=
  a ← hex_value a; b ← hex_value b; c ← hex_value c; d ← hex_value d;
  if decide (a = 0 /\ b = 0) then Some (ascii_of_nat (16 * c + d)) else None.

(** What stands for the character after a backslash. *)
Definition backslash (c : ascii) : option ascii :=
  let n := nat_of_ascii c in
  if decide (n = 34 \/ n = 92 \/ n = 47) then Some c
  else if decide (n = 98) then Some "008"%char
  else if decide (n = 102) then Some "012"%char
  else if decide (n = 110) then Some "010"%char
  else if decide (n = 114) then Some "013"%char
  else if decide (n = 116) then Some "009"%char
  else None.

(** [py_scanstring], after the opening quote: the string up to the closing
    quote and the text after it. *)
Fixpoint scanstring (s : text) : option (string * text) :=
  match s with
  | [] => None
  | c :: rest =>
      let n := nat_of_ascii c in
      if decide (n = 34) then Some (EmptyString, rest)
      else if decide (n = 92) then
        match rest with
        | e :: rest' =>
            if decide (nat_of_ascii e = 117) then
              match rest' with
              | a :: b :: c' :: d :: rest'' =>
                  x ← decode_uXXXX a b c' d;
                  '(str, r) ← scanstring rest'';
                  Some (String x str, r)
              | _ => None
              end
            else
              x ← backslash e;
              '(str, r) ← scanstring rest';
              Some (String x str, r)
        | [] => None
        end
      else if decide (n < 32) then None
      else '(str, r) ← scanstring rest; Some (String c str, r)
  end.

(** [s[idx:idx + len(word)] == word], and the text after the word. *)
Definition literal (word : string) (s : text) : option text :=
  let w := chars word in
  if decide (take (length w) s = w) then Some (drop (length w) s) else None.

(** The decoder ([scan_once], [JSONArray], [JSONObject]): a value and the
    text after it.  [fuel] bounds the nesting and the number of items
    met. *)
Fixpoint parse_value (fuel : nat) (s : text) : option (value * text) :=
  match fuel with
  | O => None
  | S fuel' =>
      match skip_whitespace s with
      | [] => None
      | c :: r =>
          if decide (c = "034"%char) then
            '(str, r') ← scanstring r; Some (VStr str, r')
          else if decide (c = "{"%char) then
            match skip_whitespace r with
            | [] => None
            | c' :: r' =>
                if decide (c' = "}"%char) then Some (VDict [], r')
                else '(items, r'') ← parse_members fuel' r; Some (VDict items, r'')
            end
          else if decide (c = "["%char) then
            match skip_whitespace r with
            | [] => None
            | c' :: r' =>
                if decide (c' = "]"%char) then Some (VList [], r')
                else '(items, r'') ← parse_items fuel' r; Some (VList items, r'')
            end
          else
            match literal "null" (c :: r) with
            | Some r' => Some (VNone, r')
            | None =>
                match literal "true" (c :: r) with
                | Some r' => Some (VBool true, r')
                | None =>
                    match literal "false" (c :: r) with
                    | Some r' => Some (VBool false, r')
                    | None => None
                    end
                end
            end
      end
  end
with parse_items (fuel : nat) (s : text) : option (list value * text) :=
  match fuel with
  | O => None
  | S fuel' =>
      '(v, r) ← parse_value fuel' s;
      match skip_whitespace r with
      | [] => None
      | c :: r' =>
          if decide (c = ","%char) then
            '(vs, r'') ← parse_items fuel' r'; Some (v :: vs, r'')
          else if decide (c = "]"%char) then Some ([v], r')
          else None
      end
  end
with parse_members (fuel : nat) (s : text)
    : option (list (string * value) * text) :=
  match fuel with
  | O => None
  | S fuel' =>
      match skip_whitespace s with
      | [] => None
      | q :: r =>
          if decide (q = "034"%char) then
            '(key, r1) ← scanstring r;
            match skip_whitespace r1 with
            | [] => None
            | c :: r2 =>
                if decide (c = ":"%char) then
                  '(v, r3) ← parse_value fuel' r2;
                  match skip_whitespace r3 with
                  | [] => None
                  | c' :: r4 =>
                      if decide (c' = ","%char) then
                        '(kvs, r5) ← parse_members fuel' r4;
                        Some ((key, v) :: kvs, r5)
                      else if decide (c' = "}"%char) then Some ([(key, v)], r4)
                      else None
                  end
                else None
            end
          else None
      end
  end.

(** [json.loads(s)]; [None] stands for [JSONDecodeError]. *)
Definition loads (s : string) : option value :=
  let t := chars s in
  '(v, rest) ← parse_value (S (length t)) t;
  match skip_whitespace rest with
  | [] => Some v
  | _ => None
  end.

(** *** Strings are read back as they were written *)

Lemma scanstring_encode_char (c : ascii) (rest : text) :
  scanstring (encode_char c ++ rest) =
  '(str, r) ← scanstring rest; Some (String c str, r).
Proof. destruct c as [[] [] [] [] [] [] [] []]; reflexivity. Qed.

Lemma scanstring_encode (s : string) (rest : text) :
  scanstring (flat_map encode_char (chars s) ++ "034"%char :: rest)
  = Some (s, rest).
Proof.
  induction s as [|c s IH]; [reflexivity|].
  change (chars (String c s)) with (c :: chars s).
  simpl flat_map. rewrite <- app_assoc, scanstring_encode_char, IH.
  reflexivity.
Qed.

(** *** Whitespace *)

Definition blank (ws : text) : Prop := Forall (fun c => is_whitespace c = true) ws.

Lemma skip_whitespace_blank (ws s : text) :
  blank ws -> skip_whitespace (ws ++ s) = skip_whitespace s.
Proof.
  induction 1 as [|c ws Hc _ IH]; [done|]. simpl. by rewrite Hc.
Qed.

Lemma newline_indent_blank (n level : nat) : blank (newline_indent n level).
Proof.
  constructor; [done|]. apply Forall_forall. intros c Hc.
  apply list_elem_of_In, repeat_spec in Hc. by subst c.
Qed.

Lemma after_open_blank (indent : option nat) (level : nat) :
  blank (after_open indent level).
Proof. destruct indent; [apply newline_indent_blank|constructor]. Qed.

Lemma before_close_blank (indent : option nat) (level : nat) :
  blank (before_close indent level).
Proof. destruct indent; [apply newline_indent_blank|constructor]. Qed.

Lemma between_comma (indent : option nat) (level : nat) :
  exists ws : text, between indent level = ","%char :: ws /\ blank ws.
Proof.
  destruct indent as [n|]; simpl.
  - eexists. split; [done|]. apply newline_indent_blank.
  - eexists. split; [done|]. by repeat constructor.
Qed.

Lemma key_separator_colon :
  exists ws : text, key_separator = ":"%char :: ws /\ blank ws.
Proof. eexists. split; [reflexivity|]. by repeat constructor. Qed.

(** The first character of a written value. *)
Definition value_start (c : ascii) : Prop :=
  c ∈ ["034"; "{"; "["; "n"; "t"; "f"]%char.

Lemma encode_start (indent : option nat) (level : nat) (v : value) :
  exists (c : ascii) (t : text), encode indent level v = c :: t /\ value_start c.
Proof.
  unfold value_start.
  destruct v as [|[]|s|[|x xs]|[|kx kxs]]; simpl; eexists _, _;
    (split; [reflexivity|]); set_solver.
Qed.

Lemma value_start_cases (c : ascii) :
  value_start c ->
  is_whitespace c = false /\ c <> "]"%char /\ c <> "}"%char.
Proof.
  unfold value_start. rewrite !elem_of_cons, elem_of_nil.
  intros [->|[->|[->|[->|[->|[->|[]]]]]]]; by repeat split.
Qed.

Lemma skip_whitespace_start (c : ascii) (s : text) :
  is_whitespace c = false -> skip_whitespace (c :: s) = c :: s.
Proof. intros Hc. simpl. by rewrite Hc. Qed.

Lemma peek_value (indent : option nat) (level : nat) (v : value) (ws s : text) :
  blank ws ->
  exists (c : ascii) (t : text),
    skip_whitespace (ws ++ encode indent level v ++ s) = c :: t /\
    c <> "]"%char /\ c <> "}"%char.
Proof.
  intros Hws. rewrite skip_whitespace_blank by done.
  destruct (encode_start indent level v) as (c & t & -> & Hc).
  apply value_start_cases in Hc as (Hc & ? & ?).
  exists c, (t ++ s). simpl. by rewrite Hc.
Qed.

(** *** Values are read back as they were written *)

(** Fuel that is enough to read a value back. *)
Fixpoint size (v : value) : nat :=
  match v with
  | VList items => S (list_sum (map (fun x => S (size x)) items))
  | VDict items => S (list_sum (map (fun kx => S (size (snd kx))) items))
  | _ => 1
  end.

Lemma size_VList_cons (x : value) (xs : list value) :
  size (VList (x :: xs)) = S (size x) + size (VList xs).
Proof. simpl. lia. Qed.

Lemma size_VDict_cons (k : string) (x : value) (kxs : list (string * value)) :
  size (VDict ((k, x) :: kxs)) = S (size x) + size (VDict kxs).
Proof. simpl. lia. Qed.

Lemma size_pos (v : value) : 1 <= size v.
Proof. destruct v; simpl; lia. Qed.

Definition items_text (indent : option nat) (level : nat) (xs : list value) : text :=
  flat_map (fun y => between indent level ++ encode indent (S level) y) xs.

Definition members_text (indent : option nat) (level : nat)
    (kxs : list (string * value)) : text :=
  flat_map (fun ky => between indent level ++ encode_string (fst ky)
                        ++ key_separator ++ encode indent (S level) (snd ky)) kxs.

Lemma encode_VList_cons (indent : option nat) (level : nat) (x : value)
    (xs : list value) :
  encode indent level (VList (x :: xs)) =
  "["%char :: after_open indent level ++ encode indent (S level) x
    ++ items_text indent level xs ++ before_close indent level ++ ["]"%char].
Proof. reflexivity. Qed.

Lemma encode_VDict_cons (indent : option nat) (level : nat) (k : string)
    (x : value) (kxs : list (string * value)) :
  encode indent level (VDict ((k, x) :: kxs)) =
  "{"%char :: after_open indent level ++ encode_string k ++ key_separator
    ++ encode indent (S level) x ++ members_text indent level kxs
    ++ before_close indent level ++ ["}"%char].
Proof. reflexivity. Qed.

Definition reads_values (fuel : nat) : Prop :=
  forall (v : value) (indent : option nat) (level : nat) (ws rest : text),
    blank ws -> size v <= fuel ->
    parse_value fuel (ws ++ encode indent level v ++ rest) = Some (v, rest).

Definition reads_items (fuel : nat) : Prop :=
  forall (x : value) (xs : list value) (indent : option nat) (level : nat)
         (ws rest : text),
    blank ws -> size (VList (x :: xs)) <= S fuel ->
    parse_items fuel
      (ws ++ encode indent (S level) x ++ items_text indent level xs
          ++ before_close indent level ++ "]"%char :: rest)
    = Some (x :: xs, rest).

Definition reads_members (fuel : nat) : Prop :=
  forall (k : string) (x : value) (kxs : list (string * value))
         (indent : option nat) (level : nat) (ws rest : text),
    blank ws -> size (VDict ((k, x) :: kxs)) <= S fuel ->
    parse_members fuel
      (ws ++ encode_string k ++ key_separator ++ encode indent (S level) x
          ++ members_text indent level kxs
          ++ before_close indent level ++ "}"%char :: rest)
    = Some ((k, x) :: kxs, rest).

Lemma parse_value_unfold (fuel : nat) (s : text) :
  parse_value (S fuel) s =
  match skip_whitespace s with
  | [] => None
  | c :: r =>
      if decide (c = "034"%char) then
        '(str, r') ← scanstring r; Some (VStr str, r')
      else if decide (c = "{"%char) then
        match skip_whitespace r with
        | [] => None
        | c' :: r' =>
            if decide (c' = "}"%char) then Some (VDict [], r')
            else '(items, r'') ← parse_members fuel r; Some (VDict items, r'')
        end
      else if decide (c = "["%char) then
        match skip_whitespace r with
        | [] => None
        | c' :: r' =>
            if decide (c' = "]"%char) then Some (VList [], r')
            else '(items, r'') ← parse_items fuel r; Some (VList items, r'')
        end
      else
        match literal "null" (c :: r) with
        | Some r' => Some (VNone, r')
        | None =>
            match literal "true" (c :: r) with
            | Some r' => Some (VBool true, r')
            | None =>
                match literal "false" (c :: r) with
                | Some r' => Some (VBool false, r')
                | None => None
                end
            end
        end
  end.
Proof. reflexivity. Qed.

Lemma parse_items_unfold (fuel : nat) (s : text) :
  parse_items (S fuel) s =
  '(v, r) ← parse_value fuel s;
  match skip_whitespace r with
  | [] => None
  | c :: r' =>
      if decide (c = ","%char) then
        '(vs, r'') ← parse_items fuel r'; Some (v :: vs, r'')
      else if decide (c = "]"%char) then Some ([v], r')
      else None
  end.
Proof. reflexivity. Qed.

Lemma parse_members_unfold (fuel : nat) (s : text) :
  parse_members (S fuel) s =
  match skip_whitespace s with
  | [] => None
  | q :: r =>
      if decide (q = "034"%char) then
        '(key, r1) ← scanstring r;
        match skip_whitespace r1 with
        | [] => None
        | c :: r2 =>
            if decide (c = ":"%char) then
              '(v, r3) ← parse_value fuel r2;
              match skip_whitespace r3 with
              | [] => None
              | c' :: r4 =>
                  if decide (c' = ","%char) then
                    '(kvs, r5) ← parse_members fuel r4;
                    Some ((key, v) :: kvs, r5)
                  else if decide (c' = "}"%char) then Some ([(key, v)], r4)
                  else None
              end
            else None
        end
      else None
  end.
Proof. reflexivity. Qed.

Lemma reads_items_step (fuel : nat) :
  reads_values fuel -> reads_items fuel -> reads_items (S fuel).
Proof.
  intros IHv IHi x xs indent level ws rest Hws Hsize.
  rewrite size_VList_cons in Hsize.
  pose proof (size_pos (VList xs)) as Hxs.
  rewrite parse_items_unfold.
  rewrite IHv by (done || lia). simpl.
  destruct xs as [|y ys]; simpl.
  - rewrite skip_whitespace_blank by apply before_close_blank. reflexivity.
  - destruct (between_comma indent level) as (ws' & -> & Hws').
    rewrite <- !app_assoc. simpl.
    fold (items_text indent level ys).
    rewrite (IHi y ys indent level ws' rest Hws') by lia.
    reflexivity.
Qed.

Lemma scanstring_key (k : string) (rest : text) :
  scanstring (flat_map encode_char (chars k) ++ "034"%char :: rest)
  = Some (k, rest).
Proof. apply scanstring_encode. Qed.

(** Texts are compared as right-nested appends of their pieces. *)
Ltac flatten :=
  unfold encode_string, key_separator;
  change (chars ": ") with [":"%char; " "%char];
  repeat first [rewrite <- app_assoc | progress cbn [app]].

Ltac flatten_in H :=
  unfold encode_string, key_separator in H;
  change (chars ": ") with [":"%char; " "%char] in H;
  repeat first [rewrite <- app_assoc in H | progress cbn [app] in H].

(** Reading one known character that is not whitespace. *)
Ltac read_char :=
  rewrite skip_whitespace_start by reflexivity;
  cbv beta iota;
  repeat (rewrite decide_False by discriminate);
  rewrite decide_True by reflexivity.

Lemma reads_members_step (fuel : nat) :
  reads_values fuel -> reads_members fuel -> reads_members (S fuel).
Proof.
  intros IHv IHm k x kxs indent level ws rest Hws Hsize.
  rewrite size_VDict_cons in Hsize.
  pose proof (size_pos (VDict kxs)) as Hkxs.
  rewrite parse_members_unfold.
  rewrite skip_whitespace_blank by done.
  flatten. read_char.
  rewrite scanstring_key. cbn [mbind option_bind]. read_char.
  assert (Hblank : blank [" "%char]) by (by repeat constructor).
  pose proof (IHv x indent (S level) [" "%char]
                (members_text indent level kxs ++ before_close indent level
                   ++ "}"%char :: rest) Hblank ltac:(lia)) as Hx.
  flatten_in Hx. rewrite Hx. cbn [mbind option_bind].
  destruct kxs as [|[k' y] kys].
  - cbn [members_text flat_map app].
    rewrite skip_whitespace_blank by apply before_close_blank.
    read_char. reflexivity.
  - cbn [members_text flat_map fst snd].
    fold (members_text indent level kys).
    destruct (between_comma indent level) as (ws' & Hbetween & Hws').
    rewrite Hbetween.
    pose proof (IHm k' y kys indent level ws' rest Hws' ltac:(lia)) as Hm.
    flatten_in Hm. flatten. read_char.
    rewrite Hm. reflexivity.
Qed.

Lemma reads_values_step (fuel : nat) :
  reads_items fuel -> reads_members fuel -> reads_values (S fuel).
Proof.
  intros IHi IHm v indent level ws rest Hws Hsize.
  rewrite parse_value_unfold, skip_whitespace_blank by done.
  destruct v as [|[]|s|[|x xs]|[|[k x] kxs]]; try reflexivity.
  - cbn [encode]. flatten. read_char. by rewrite scanstring_key.
  - destruct (peek_value indent (S level) x (after_open indent level)
                (items_text indent level xs ++ before_close indent level
                   ++ "]"%char :: rest) (after_open_blank _ _))
      as (c & t & Hpeek & Hc & _).
    pose proof (IHi x xs indent level (after_open indent level) rest
                  (after_open_blank _ _) Hsize) as Hrun.
    rewrite encode_VList_cons. flatten. read_char.
    rewrite Hpeek. cbv beta iota. rewrite decide_False by done.
    rewrite Hrun. reflexivity.
  - destruct (peek_value indent (S level) (VStr k) (after_open indent level)
                (key_separator ++ encode indent (S level) x
                   ++ members_text indent level kxs ++ before_close indent level
                   ++ "}"%char :: rest) (after_open_blank _ _))
      as (c & t & Hpeek & _ & Hc).
    pose proof (IHm k x kxs indent level (after_open indent level) rest
                  (after_open_blank _ _) Hsize) as Hrun.
    cbn [encode] in Hpeek. flatten_in Hpeek. flatten_in Hrun.
    rewrite encode_VDict_cons. flatten. read_char.
    rewrite Hpeek. cbv beta iota. rewrite decide_False by done.
    rewrite Hrun. reflexivity.
Qed.

Lemma reads_all (fuel : nat) :
  reads_values fuel /\ reads_items fuel /\ reads_members fuel.
Proof.
  induction fuel as [|fuel (IHv & IHi & IHm)].
  - repeat split.
    + intros v ? ? ? ? _ Hsize. pose proof (size_pos v). lia.
    + intros x xs ? ? ? ? _ Hsize. rewrite size_VList_cons in Hsize.
      pose proof (size_pos x). lia.
    + intros k x kxs ? ? ? ? _ Hsize. rewrite size_VDict_cons in Hsize.
      pose proof (size_pos x). lia.
  - repeat split.
    + by apply reads_values_step.
    + by apply reads_items_step.
    + by apply reads_members_step.
Qed.

(** The fuel that [loads] takes from the length of the text is enough. *)
Lemma size_le_length (n : nat) :
  forall (v : value) (indent : option nat) (level : nat),
    size v <= n -> size v <= length (encode indent level v).
Proof.
  induction n as [|n IH]; intros v indent level Hn.
  { pose proof (size_pos v). lia. }
  destruct v as [|[]|s|[|x xs]|[|[k x] kxs]];
    try (cbn [encode size]; unfold encode_string; simpl; lia).
  - rewrite encode_VList_cons. rewrite size_VList_cons in *.
    pose proof (size_pos (VList xs)) as Hxs.
    assert (Hx : size x <= length (encode indent (S level) x)) by (apply IH; lia).
    assert (Hrest : size (VList xs) <= S (length (items_text indent level xs))).
    { assert (Hb : size (VList xs) <= S n) by lia. clear -IH Hb.
      induction xs as [|y ys IHys]; [simpl; lia|].
      rewrite size_VList_cons in *.
      pose proof (size_pos (VList ys)).
      cbn [items_text flat_map]. fold (items_text indent level ys).
      destruct (between_comma indent level) as (ws & -> & _).
      rewrite ?length_app. cbn [length]. rewrite ?length_app.
      assert (size y <= length (encode indent (S level) y)) by (apply IH; lia).
      assert (size (VList ys) <= S (length (items_text indent level ys)))
        by (apply IHys; lia).
      lia. }
    cbn [length]. rewrite ?length_app. cbn [length]. lia.
  - rewrite encode_VDict_cons. rewrite size_VDict_cons in *.
    pose proof (size_pos (VDict kxs)) as Hkxs.
    assert (Hx : size x <= length (encode indent (S level) x)) by (apply IH; lia).
    assert (Hrest : size (VDict kxs) <= S (length (members_text indent level kxs))).
    { assert (Hb : size (VDict kxs) <= S n) by lia. clear -IH Hb.
      induction kxs as [|[k' y] kys IHkys]; [simpl; lia|].
      rewrite size_VDict_cons in *.
      pose proof (size_pos (VDict kys)).
      cbn [members_text flat_map fst snd]. fold (members_text indent level kys).
      destruct (between_comma indent level) as (ws & Hbetween & _).
      rewrite Hbetween.
      rewrite ?length_app. cbn [length]. rewrite ?length_app.
      assert (size y <= length (encode indent (S level) y)) by (apply IH; lia).
      assert (size (VDict kys) <= S (length (members_text indent level kys)))
        by (apply IHkys; lia).
      lia. }
    cbn [length]. rewrite ?length_app. cbn [length]. lia.
Qed.

(** What [json.dumps] writes, [json.loads] reads back. *)
Lemma loads_dumps (indent : option nat) (v : value) :
  loads (dumps indent v) = Some v.
Proof.
  unfold loads, dumps, chars.
  rewrite String.list_ascii_of_string_of_list_ascii.
  destruct (reads_all (S (length (encode indent 0 v)))) as (Hread & _ & _).
  pose proof (Hread v indent 0 [] []) as Hrun.
  rewrite app_nil_r in Hrun. simpl app in Hrun.
  rewrite Hrun; [reflexivity|constructor|].
  pose proof (size_le_length (size v) v indent 0). lia.
Qed.

End Json.

(** ** The ontology as JSON text (UFC notebook, cells 4 and 5)

    Modelled from the spec: [Ontology.to_json] belongs to the SDK and is not
    among the sources.  The spec's ontology is a "schema of entity types,
    relation types, and their attributes"; [to_json] lays it out as the
    output of cell 5 shows.  How [Ontology.from_json] reads a dictionary
    neither the spec nor the notebooks say, so it has no model here. *)

Module OntologyJson.

Import Json Ontology.

(** *** [to_json] *)

Definition attribute_to_json (a : Attribute) : value :=
  VDict [ ("name", VStr (name a));
          ("type", VStr (type a));
          ("unique", VBool (unique a));
          ("required", VBool (required a)) ].

Definition entity_to_json (e : Entity) : value :=
  VDict [ ("label", VStr (entity_label e));
          ("attributes", VList (map attribute_to_json (entity_attributes e)));
          ("description", VStr (description e)) ].

Definition relation_to_json (r : Relation) : value :=
  VDict [ ("label", VStr (label r));
          ("source", VDict [("label", VStr (source r))]);
          ("target", VDict [("label", VStr (target r))]);
          ("attributes", VList (map attribute_to_json (attributes r))) ].

(** [ontology.to_json()] *)
Definition to_json (o : Ontology) : value :=
  VDict [ ("entities", VList (map entity_to_json (entities o)));
          ("relations", VList (map relation_to_json (relations o))) ].

(** The text that cell 5 printed. *)
Definition recorded_ontology_json : string := quoted
"{
    `entities`: [
        {
            `label`: `Person`,
            `attributes`: [
                {
                    `name`: `name`,
                    `type`: `string`,
                    `unique`: true,
                    `required`: true
                },
                {
                    `name`: `nickname`,
                    `type`: `string`,
                    `unique`: false,
                    `required`: false
                }
            ],
            `description`: ``
        },
        {
            `label`: `FightEvent`,
            `attributes`: [
                {
                    `name`: `name`,
                    `type`: `string`,
                    `unique`: true,
                    `required`: true
                },
                {
                    `name`: `date`,
                    `type`: `string`,
                    `unique`: false,
                    `required`: true
                },
                {
                    `name`: `location`,
                    `type`: `string`,
                    `unique`: false,
                    `required`: true
                }
            ],
            `description`: ``
        },
        {
            `label`: `Bout`,
            `attributes`: [
                {
                    `name`: `weight_class`,
                    `type`: `string`,
                    `unique`: false,
                    `required`: true
                },
                {
                    `name`: `method`,
                    `type`: `string`,
                    `unique`: false,
                    `required`: true
                },
                {
                    `name`: `round`,
                    `type`: `number`,
                    `unique`: false,
                    `required`: true
                },
                {
                    `name`: `time`,
                    `type`: `string`,
                    `unique`: false,
                    `required`: true
                },
                {
                    `name`: `time_format`,
                    `type`: `string`,
                    `unique`: false,
                    `required`: true
                },
                {
                    `name`: `referee`,
                    `type`: `string`,
                    `unique`: false,
                    `required`: false
                }
            ],
            `description`: ``
        }
    ],
    `relations`: [
        {
            `label`: `FOUGHT_IN`,
            `source`: {
                `label`: `Person`
            },
            `target`: {
                `label`: `Bout`
            },
            `attributes`: [
                {
                    `name`: `result`,
                    `type`: `string`,
                    `unique`: false,
                    `required`: true
                },
                {
                    `name`: `knockdowns`,
                    `type`: `number`,
                    `unique`: false,
                    `required`: false
                },
                {
                    `name`: `significant_strikes`,
                    `type`: `number`,
                    `unique`: false,
                    `required`: false
                },
                {
                    `name`: `significant_strikes_attempted`,
                    `type`: `number`,
                    `unique`: false,
                    `required`: false
                },
                {
                    `name`: `significant_strikes_percentage`,
                    `type`: `string`,
                    `unique`: false,
                    `required`: false
                },
                {
                    `name`: `total_strikes`,
                    `type`: `number`,
                    `unique`: false,
                    `required`: false
                },
                {
                    `name`: `total_strikes_attempted`,
                    `type`: `number`,
                    `unique`: false,
                    `required`: false
                },
                {
                    `name`: `takedowns`,
                    `type`: `number`,
                    `unique`: false,
                    `required`: false
                },
                {
                    `name`: `takedowns_attempted`,
                    `type`: `number`,
                    `unique`: false,
                    `required`: false
                },
                {
                    `name`: `takedown_percentage`,
                    `type`: `string`,
                    `unique`: false,
                    `required`: false
                },
                {
                    `name`: `submissions_attempted`,
                    `type`: `number`,
                    `unique`: false,
                    `required`: false
                },
                {
                    `name`: `passes`,
                    `type`: `number`,
                    `unique`: false,
                    `required`: false
                },
                {
                    `name`: `reversals`,
                    `type`: `number`,
                    `unique`: false,
                    `required`: false
                }
            ]
        },
        {
            `label`: `PART_OF_EVENT`,
            `source`: {
                `label`: `Bout`
            },
            `target`: {
                `label`: `FightEvent`
            },
            `attributes`: []
        },
        {
            `label`: `PART_OF`,
            `source`: {
                `label`: `Bout`
            },
            `target`: {
                `label`: `FightEvent`
            },
            `attributes`: []
        }
    ]
}".

(** The model writes the recorded ontology as the notebook printed it,
    character for character. *)
Example to_json_as_recorded :
  dumps (Some 4) (to_json ufc_ontology) = recorded_ontology_json.
Proof. vm_compute. reflexivity. Qed.

(** Read as JSON, the recorded text is the dictionary of the recorded
    ontology. *)
Example recorded_json_loads :
  loads recorded_ontology_json = Some (to_json ufc_ontology).
Proof. vm_compute. reflexivity. Qed.

End OntologyJson.

(** ** The product with [percent] as a rounded tenth

    [len(sources) * percent] is a product of binary64 numbers and [percent]
    is not one tenth but the double next to it.  The lemmas below follow
    [binary_normalize] and [SFmul] on arbitrary mantissas, to show that
    [round] of the product is all the same the tenth of the length rounded
    half to even. *)

Module FloatFacts.

Import Sampling.

#[local] Open Scope Z_scope.

(** *** Shifting a mantissa to the right *)

Lemma iter_pos_nat {A : Type} (f : A -> A) (p : positive) (x : A) :
  SpecFloat.iter_pos f p x = Nat.iter (Pos.to_nat p) f x.
Proof.
  revert x. induction p as [p IH|p IH|]; intros x; cbn [SpecFloat.iter_pos].
  - rewrite !IH. rewrite Pos2Nat.inj_xI.
    replace (S (2 * Pos.to_nat p))%nat with (Pos.to_nat p + (Pos.to_nat p + 1))%nat by lia.
    rewrite !Nat.iter_add. reflexivity.
  - rewrite !IH. rewrite Pos2Nat.inj_xO.
    replace (2 * Pos.to_nat p)%nat with (Pos.to_nat p + Pos.to_nat p)%nat by lia.
    by rewrite Nat.iter_add.
  - reflexivity.
Qed.

Lemma shr_1_nonneg (m : Z) (r s : bool) :
  0 <= m ->
  shr_1 {| shr_m := m; shr_r := r; shr_s := s |} =
  {| shr_m := m / 2; shr_r := Z.odd m; shr_s := r || s |}.
Proof.
  intros Hm. destruct m as [|[p|p|]|p]; try lia; simpl; try reflexivity.
  - f_equal. rewrite Pos2Z.inj_xI. apply Z.div_unique with 1; lia.
  - f_equal. rewrite Pos2Z.inj_xO. apply Z.div_unique with 0; lia.
Qed.

(** After [k] single shifts the record holds the quotient by [2 ^ k], and
    its two flags say how the remainder compares with half of [2 ^ k]. *)
Lemma shr_iter (m0 : Z) (k : nat) :
  0 <= m0 ->
  exists (r s : bool) (t : Z),
    Nat.iter (S k) shr_1 {| shr_m := m0; shr_r := false; shr_s := false |} =
      {| shr_m := m0 / 2 ^ Z.of_nat (S k); shr_r := r; shr_s := s |} /\
    m0 mod 2 ^ Z.of_nat (S k) = Z.b2z r * 2 ^ Z.of_nat k + t /\
    0 <= t < 2 ^ Z.of_nat k /\
    s = negb (t =? 0).
Proof.
  intros Hm0. induction k as [|k (r & s & t & Hiter & Hmod & Ht & Hs)].
  - exists (Z.odd m0), false, 0. cbn [Nat.iter nat_rect]. rewrite shr_1_nonneg by done.
    change (2 ^ Z.of_nat 1) with 2. change (2 ^ Z.of_nat 0) with 1.
    repeat split; try lia. rewrite Zmod_odd. destruct (Z.odd m0); simpl; lia.
  - set (q := m0 / 2 ^ Z.of_nat (S k)) in *.
    assert (Hq : 0 <= q) by (apply Z.div_pos; [lia|apply Z.pow_pos_nonneg; lia]).
    exists (Z.odd q), (r || s), (Z.b2z r * 2 ^ Z.of_nat k + t).
    rewrite Nat.iter_succ, Hiter, shr_1_nonneg by done.
    assert (Hpow : 2 ^ Z.of_nat (S (S k)) = 2 ^ Z.of_nat (S k) * 2).
    { rewrite (Nat2Z.inj_succ (S k)), Z.pow_succ_r by lia. lia. }
    assert (Hpow' : 2 ^ Z.of_nat (S k) = 2 * 2 ^ Z.of_nat k).
    { rewrite (Nat2Z.inj_succ k), Z.pow_succ_r by lia. lia. }
    assert (Hp : 0 < 2 ^ Z.of_nat k) by (apply Z.pow_pos_nonneg; lia).
    repeat split.
    + f_equal. unfold q. rewrite Hpow. rewrite Z.div_div by lia. reflexivity.
    + rewrite Hpow. rewrite Z.rem_mul_r by lia. fold q.
      rewrite Hmod, Zmod_odd. destruct (Z.odd q); simpl; lia.
    + destruct r; simpl; lia.
    + destruct r; simpl; lia.
    + destruct r; simpl.
      * symmetry. apply negb_true_iff, Z.eqb_neq. lia.
      * rewrite Hs. reflexivity.
Qed.

(** Shifting by [p] bits and rounding to nearest, ties to even, is
    [round_half_even] with divisor [2 ^ p]. *)
Lemma round_shr (m : Z) (p : positive) :
  0 <= m ->
  let mrs := SpecFloat.iter_pos shr_1 p
               {| shr_m := m; shr_r := false; shr_s := false |} in
  shr_m mrs = m / 2 ^ Z.pos p /\
  round_nearest_even (shr_m mrs) (loc_of_shr_record mrs)
    = round_half_even m (2 ^ Z.pos p).
Proof.
  intros Hm mrs. unfold mrs. rewrite iter_pos_nat.
  destruct (Pos2Nat.is_succ p) as [k Hk]. rewrite Hk.
  destruct (shr_iter m k Hm) as (r & s & t & -> & Hmod & Ht & Hs).
  assert (Hp : Z.pos p = Z.of_nat (S k)) by lia.
  rewrite Hp. split; [reflexivity|].
  assert (Hpow : 2 ^ Z.of_nat (S k) = 2 * 2 ^ Z.of_nat k).
  { rewrite (Nat2Z.inj_succ k), Z.pow_succ_r by lia. lia. }
  unfold round_half_even. rewrite Hmod. cbn [shr_m loc_of_shr_record].
  destruct r, s; cbn [Z.b2z round_nearest_even];
    symmetry in Hs; try apply negb_true_iff in Hs; try apply negb_false_iff in Hs;
    try apply Z.eqb_neq in Hs; try apply Z.eqb_eq in Hs.
  - replace (2 * (1 * 2 ^ Z.of_nat k + t) ?= 2 ^ Z.of_nat (S k)) with Gt; [done|].
    symmetry. apply Z.compare_gt_iff. lia.
  - replace (2 * (1 * 2 ^ Z.of_nat k + t) ?= 2 ^ Z.of_nat (S k)) with Eq; [done|].
    symmetry. apply Z.compare_eq_iff. lia.
  - replace (2 * (0 * 2 ^ Z.of_nat k + t) ?= 2 ^ Z.of_nat (S k)) with Lt; [done|].
    symmetry. apply Z.compare_lt_iff. lia.
  - replace (2 * (0 * 2 ^ Z.of_nat k + t) ?= 2 ^ Z.of_nat (S k)) with Lt; [done|].
    symmetry. apply Z.compare_lt_iff. lia.
Qed.

(** *** The number of binary digits *)

Lemma digits2_pos_bounds (p : positive) :
  2 ^ (Z.pos (digits2_pos p) - 1) <= Z.pos p < 2 ^ Z.pos (digits2_pos p).
Proof.
  induction p as [p IH|p IH|]; cbn [digits2_pos]; [| |simpl; lia].
  - rewrite Pos2Z.inj_succ, (Pos2Z.inj_xI p).
    replace (Z.succ (Z.pos (digits2_pos p)) - 1) with (Z.succ (Z.pos (digits2_pos p) - 1)) by lia.
    rewrite !Z.pow_succ_r by lia.
    set (a := 2 ^ (Z.pos (digits2_pos p) - 1)) in *.
    set (b := 2 ^ Z.pos (digits2_pos p)) in *. clearbody a b. lia.
  - rewrite Pos2Z.inj_succ, (Pos2Z.inj_xO p).
    replace (Z.succ (Z.pos (digits2_pos p)) - 1) with (Z.succ (Z.pos (digits2_pos p) - 1)) by lia.
    rewrite !Z.pow_succ_r by lia.
    set (a := 2 ^ (Z.pos (digits2_pos p) - 1)) in *.
    set (b := 2 ^ Z.pos (digits2_pos p)) in *. clearbody a b. lia.
Qed.

Lemma digits2_pos_unique (p : positive) (n : Z) :
  2 ^ (n - 1) <= Z.pos p < 2 ^ n -> Z.pos (digits2_pos p) = n.
Proof.
  intros [Hlo Hhi]. pose proof (digits2_pos_bounds p) as [Hlo' Hhi'].
  set (d := Z.pos (digits2_pos p)) in *.
  assert (Hn : 0 < n).
  { destruct (Z_lt_le_dec 0 n) as [|Hle]; [done|].
    exfalso. destruct n as [|n|n]; [simpl in Hhi; lia| lia |].
    rewrite Z.pow_neg_r in Hhi; lia. }
  destruct (Z_lt_le_dec d n) as [Hlt|Hge].
  - assert (2 ^ d <= 2 ^ (n - 1)) by (apply Z.pow_le_mono_r; lia). lia.
  - destruct (Z_lt_le_dec n d) as [Hlt|Hle]; [|lia].
    assert (2 ^ n <= 2 ^ (d - 1)) by (apply Z.pow_le_mono_r; lia). lia.
Qed.

(** *** Rounding to binary64 *)

Lemma round_half_even_between (m d : Z) :
  0 < d -> m / d <= round_half_even m d <= m / d + 1.
Proof.
  intros Hd. unfold round_half_even.
  destruct (2 * (m mod d) ?= d); [destruct (Z.even (m / d))| |]; lia.
Qed.

Lemma shr_fexp_exact (m e : Z) :
  shr_fexp prec emax m e loc_Exact =
  shr {| shr_m := m; shr_r := false; shr_s := false |} e
      (Z.max (Zdigits2 m + e - 53) (-1074) - e).
Proof. reflexivity. Qed.

(** A mantissa of [53 + k] digits is shifted by [k] digits and rounded to
    nearest, ties to even; when that reaches [2 ^ 53] one more digit goes. *)
Lemma binary_round_aux_rounds (P : positive) (ex : Z) (k : positive) :
  Z.pos (digits2_pos P) = 53 + Z.pos k ->
  -1074 <= ex + Z.pos k ->
  ex + Z.pos k + 1 <= 971 ->
  exists (m3 : positive) (e3 : Z),
    binary_round_aux prec emax false (Z.pos P) ex loc_Exact
      = S754_finite false m3 e3 /\
    ex + Z.pos k <= e3 <= ex + Z.pos k + 1 /\
    Z.pos m3 * 2 ^ (e3 - (ex + Z.pos k))
      = round_half_even (Z.pos P) (2 ^ Z.pos k).
Proof.
  intros Hd Hlo Hhi.
  pose proof (digits2_pos_bounds P) as [HPlo HPhi]. rewrite Hd in HPlo, HPhi.
  assert (H2k : 0 < 2 ^ Z.pos k) by (apply Z.pow_pos_nonneg; lia).
  assert (Hq : 2 ^ 52 <= Z.pos P / 2 ^ Z.pos k < 2 ^ 53).
  { replace (53 + Z.pos k - 1) with (52 + Z.pos k) in HPlo by lia.
    rewrite Z.pow_add_r in HPlo, HPhi by lia. split.
    - apply Z.div_le_lower_bound; lia.
    - apply Z.div_lt_upper_bound; lia. }
  destruct (round_shr (Z.pos P) k ltac:(lia)) as [_ Hround].
  pose proof (round_half_even_between (Z.pos P) (2 ^ Z.pos k) H2k) as Hbetween.
  unfold binary_round_aux. rewrite shr_fexp_exact.
  change (Zdigits2 (Z.pos P)) with (Z.pos (digits2_pos P)). rewrite Hd.
  replace (Z.max (53 + Z.pos k + ex - 53) (-1074) - ex) with (Z.pos k) by lia.
  cbn [shr]. rewrite Hround.
  set (r2 := round_half_even (Z.pos P) (2 ^ Z.pos k)) in *.
  rewrite shr_fexp_exact. clearbody r2.
  destruct r2 as [|m2|m2]; [lia| |lia].
  destruct (Z_lt_le_dec (Z.pos m2) (2 ^ 53)) as [Hlt|Hge].
  - change (Zdigits2 (Z.pos m2)) with (Z.pos (digits2_pos m2)).
    rewrite (digits2_pos_unique m2 53) by (change (53 - 1) with 52; lia).
    replace (Z.max (53 + (ex + Z.pos k) - 53) (-1074) - (ex + Z.pos k)) with 0 by lia.
    cbn [shr shr_m].
    replace (ex + Z.pos k <=? emax - prec) with true
      by (symmetry; apply Z.leb_le; unfold emax, prec; lia).
    exists m2, (ex + Z.pos k). split; [reflexivity|]. split; [lia|].
    rewrite Z.sub_diag. simpl. lia.
  - assert (Heq : Z.pos m2 = 2 ^ 53) by lia.
    change (Zdigits2 (Z.pos m2)) with (Z.pos (digits2_pos m2)).
    rewrite (digits2_pos_unique m2 54) by (rewrite Heq; simpl; lia).
    replace (Z.max (54 + (ex + Z.pos k) - 53) (-1074) - (ex + Z.pos k)) with 1 by lia.
    cbn [shr SpecFloat.iter_pos]. rewrite shr_1_nonneg by lia.
    cbn [shr_m]. rewrite Heq. change (2 ^ 53 / 2) with (Z.pos (2 ^ 52)%positive).
    cbv beta iota.
    replace (ex + Z.pos k + 1 <=? emax - prec) with true
      by (symmetry; apply Z.leb_le; unfold emax, prec; lia).
    exists (2 ^ 52)%positive, (ex + Z.pos k + 1). split; [reflexivity|].
    split; [lia|].
    replace (ex + Z.pos k + 1 - (ex + Z.pos k)) with 1 by lia. reflexivity.
Qed.

Lemma binary_round_aux_exact (m : positive) (e : Z) :
  Z.pos (digits2_pos m) = 53 -> -1074 <= e <= 971 ->
  binary_round_aux prec emax false (Z.pos m) e loc_Exact = S754_finite false m e.
Proof.
  intros Hd He. unfold binary_round_aux. rewrite shr_fexp_exact.
  change (Zdigits2 (Z.pos m)) with (Z.pos (digits2_pos m)). rewrite Hd.
  replace (Z.max (53 + e - 53) (-1074) - e) with 0 by lia.
  cbn [shr shr_m loc_of_shr_record round_nearest_even]. rewrite shr_fexp_exact.
  change (Zdigits2 (Z.pos m)) with (Z.pos (digits2_pos m)). rewrite Hd.
  replace (Z.max (53 + e - 53) (-1074) - e) with 0 by lia.
  cbn [shr shr_m].
  replace (e <=? emax - prec) with true
    by (symmetry; apply Z.leb_le; unfold emax, prec; lia).
  reflexivity.
Qed.

Lemma iter_xO (p s : positive) : Z.pos (Pos.iter xO p s) = Z.pos p * 2 ^ Z.pos s.
Proof.
  induction s as [|s IH] using Pos.peano_ind.
  - simpl. lia.
  - rewrite Pos.iter_succ, Pos2Z.inj_succ, Z.pow_succ_r by lia.
    rewrite (Pos2Z.inj_xO (Pos.iter xO p s)), IH. lia.
Qed.

(** A positive [int] below [2 ^ 53] becomes the [float] of the same value,
    with a mantissa of 53 digits. *)
Lemma float_of_int_exact (p : positive) :
  Z.pos p < 2 ^ 53 ->
  exists (mz : positive) (s : Z),
    float_of_int (Z.pos p) = S754_finite false mz (- s) /\
    0 <= s /\ s = 53 - Z.pos (digits2_pos p) /\
    Z.pos mz = Z.pos p * 2 ^ s /\
    Z.pos (digits2_pos mz) = 53.
Proof.
  intros Hp. pose proof (digits2_pos_bounds p) as [Hlo Hhi].
  set (d := Z.pos (digits2_pos p)) in *.
  assert (Hd : 1 <= d <= 53).
  { split; [unfold d; lia|].
    destruct (Z_lt_le_dec 53 d) as [Hgt|]; [|done].
    assert (2 ^ 53 <= 2 ^ (d - 1)) by (apply Z.pow_le_mono_r; lia). lia. }
  unfold float_of_int, binary_normalize, binary_round.
  change (fexp prec emax (Z.pos (digits2_pos p) + 0))
    with (Z.max (d + 0 - 53) (-1074)).
  replace (Z.max (d + 0 - 53) (-1074)) with (d - 53) by lia.
  unfold shl_align.
  destruct (d - 53 - 0) as [|z|z] eqn:Hz; [|lia|].
  - assert (d = 53) by lia.
    exists p, 0. rewrite binary_round_aux_exact by (done || lia).
    repeat split; lia.
  - assert (Hs : 53 - d = Z.pos z) by lia.
    assert (Hmz : Z.pos (Pos.iter xO p z) = Z.pos p * 2 ^ (53 - d))
      by (rewrite Hs; apply iter_xO).
    assert (Hdig : Z.pos (digits2_pos (Pos.iter xO p z)) = 53).
    { apply digits2_pos_unique. rewrite Hmz.
      assert (E1 : 2 ^ (53 - 1) = 2 ^ (d - 1) * 2 ^ (53 - d))
        by (rewrite <- Z.pow_add_r by lia; f_equal; lia).
      assert (E2 : 2 ^ 53 = 2 ^ d * 2 ^ (53 - d))
        by (rewrite <- Z.pow_add_r by lia; f_equal; lia).
      assert (0 < 2 ^ (53 - d)) by (apply Z.pow_pos_nonneg; lia).
      rewrite E1, E2.
      split; [apply Z.mul_le_mono_nonneg_r; lia|apply Z.mul_lt_mono_pos_r; lia]. }
    exists (Pos.iter xO p z), (53 - d).
    rewrite binary_round_aux_exact by (done || lia).
    repeat split; try lia. f_equal. lia.
Qed.

(** *** Rounding half to even, in integers *)

(** [round_half_even (q * d + r) d] for a remainder [r] below [d]. *)
Lemma round_half_even_cases (q r d : Z) :
  0 <= r < d ->
  round_half_even (q * d + r) d =
  match 2 * r ?= d with
  | Lt => q
  | Gt => q + 1
  | Eq => if Z.even q then q else q + 1
  end.
Proof.
  intros Hr. unfold round_half_even.
  assert (Hq : (q * d + r) / d = q) by (symmetry; apply Z.div_unique with r; lia).
  assert (Hm : (q * d + r) mod d = r) by (symmetry; apply Z.mod_unique with q; lia).
  by rewrite Hq, Hm.
Qed.

Lemma round_half_even_low (q r d : Z) :
  0 <= r -> 2 * r < d -> round_half_even (q * d + r) d = q.
Proof.
  intros H0 Hr. rewrite round_half_even_cases by lia.
  by replace (2 * r ?= d) with Lt by (symmetry; apply Z.compare_lt_iff; lia).
Qed.

Lemma round_half_even_high (q r d : Z) :
  r < d -> d < 2 * r -> round_half_even (q * d + r) d = q + 1.
Proof.
  intros H0 Hr. rewrite round_half_even_cases by lia.
  by replace (2 * r ?= d) with Gt by (symmetry; apply Z.compare_gt_iff; lia).
Qed.

Lemma round_half_even_tie (q h : Z) :
  0 < h ->
  round_half_even (q * (2 * h) + h) (2 * h) = if Z.even q then q else q + 1.
Proof.
  intros Hh. rewrite round_half_even_cases by lia.
  by replace (2 * h ?= 2 * h) with Eq by (symmetry; apply Z.compare_eq_iff; lia).
Qed.

(** The rounded quotient is within half a unit of the exact one. *)
Lemma round_half_even_near (m d : Z) :
  0 < d -> - d <= 2 * (round_half_even m d * d - m) <= d.
Proof.
  intros Hd. pose proof (Z.div_mod m d ltac:(lia)) as Hm.
  pose proof (Z.mod_pos_bound m d Hd) as Hr.
  unfold round_half_even.
  set (q := m / d) in *. set (r := m mod d) in *. clearbody q r.
  destruct (2 * r ?= d) eqn:Hc;
    [rewrite Z.compare_eq_iff in Hc|rewrite Z.compare_lt_iff in Hc
     |rewrite Z.compare_gt_iff in Hc];
    [destruct (Z.even q)| |]; nia.
Qed.

Lemma round_half_even_double (m d : Z) :
  0 < d -> round_half_even (2 * m) (2 * d) = round_half_even m d.
Proof.
  intros Hd. pose proof (Z.div_mod m d ltac:(lia)) as Hm.
  pose proof (Z.mod_pos_bound m d Hd) as Hr.
  rewrite Hm at 2. rewrite (Z.mul_comm d (m / d)).
  rewrite (round_half_even_cases (m / d) (m mod d) d Hr).
  replace (2 * m) with (m / d * (2 * d) + 2 * (m mod d)) by lia.
  rewrite round_half_even_cases by lia.
  assert (Hcmp : (2 * (2 * (m mod d)) ?= 2 * d) = (2 * (m mod d) ?= d)).
  { destruct (Z.compare_spec (2 * (m mod d)) d);
      [apply Z.compare_eq_iff|apply Z.compare_lt_iff|apply Z.compare_gt_iff]; lia. }
  by rewrite Hcmp.
Qed.

(** *** A tenth of an integer *)

(** The integer core of [round(n * 0.1)]: [M] is the mantissa of the float
    0.1, [A] the mantissa of the float n, [K] and [D] the powers of two by
    which the product is shifted and by which the result is scaled. *)
Lemma tenth_rounds (n A P K D h : Z) :
  0 <= n -> 0 <= A -> 0 < K -> 16 <= D -> D = 2 * h ->
  10 * P = A * (2 ^ 56 + 4) ->
  n * D * K = 2 ^ 56 * A ->
  8 * A < 10 * K ->
  round_half_even (round_half_even P K) D = round_half_even n 10.
Proof.
  change (2 ^ 56) with 72057594037927936.
  intros Hn HA HK HD Hh HP HnDK HAK.
  pose proof (Z.div_mod n 10 ltac:(lia)) as Hdiv.
  pose proof (Z.mod_pos_bound n 10 ltac:(lia)) as Hr.
  set (q := n / 10) in *. set (r := n mod 10) in *. clearbody q r.
  assert (Hrhs : round_half_even n 10 =
                 match 2 * r ?= 10 with
                 | Lt => q | Gt => q + 1
                 | Eq => if Z.even q then q else q + 1
                 end).
  { rewrite Hdiv, (Z.mul_comm 10 q). by apply round_half_even_cases. }
  destruct (Z.eq_dec r 5) as [->|Hne].
  - (* a tie: the product rounds to the half-integer itself *)
    rewrite Hrhs. change (2 * 5 ?= 10) with Eq.
    set (x := P - (q * D + h) * K).
    assert (Hx : 10 * x = 4 * A) by (unfold x; nia).
    replace P with ((q * D + h) * K + x) by (unfold x; lia).
    rewrite round_half_even_low by lia.
    rewrite Hh. apply round_half_even_tie. lia.
  - pose proof (round_half_even_near P K HK) as Hnear.
    set (m2 := round_half_even P K) in *. clearbody m2.
    set (t := 10 * m2 - n * D).
    assert (HtK : t * K = 10 * (m2 * K) - n * D * K) by (unfold t; ring).
    assert (Ht : -5 <= t < 10).
    { split.
      - apply (Z.mul_le_mono_pos_r _ _ K); [done|]. lia.
      - apply (Z.mul_lt_mono_pos_r K); [done|]. lia. }
    set (c := m2 - q * D).
    assert (Hc : 10 * c = t + r * D) by (unfold c, t; nia).
    replace m2 with (q * D + c) by (unfold c; lia).
    rewrite Hrhs.
    assert (Hcases : r = 0 \/ r = 1 \/ r = 2 \/ r = 3 \/ r = 4 \/
                     r = 6 \/ r = 7 \/ r = 8 \/ r = 9) by lia.
    destruct Hcases as [->|[->|[->|[->|[->|[->|[->|[->| ->]]]]]]]];
      simpl Z.compare;
      first [ apply round_half_even_low; lia | apply round_half_even_high; lia ].
Qed.

(** *** [round(n * 0.1)] *)

Lemma py_round_scaled (m3 : positive) (e3 E m2 : Z) :
  4 <= E -> - E <= e3 <= - E + 1 ->
  Z.pos m3 * 2 ^ (e3 + E) = m2 ->
  py_round (S754_finite false m3 e3) = Some (round_half_even m2 (2 ^ E)).
Proof.
  intros HE He Hm. destruct e3 as [|e|e]; try lia.
  cbn [py_round]. f_equal.
  assert (Hcase : Z.neg e = - E \/ Z.neg e = - E + 1) by lia.
  destruct Hcase as [Heq|Heq].
  - rewrite Heq in Hm. replace (- E + E) with 0 in Hm by lia.
    replace (Z.pos e) with E by lia. rewrite <- Hm. f_equal. simpl. lia.
  - rewrite Heq in Hm. replace (- E + 1 + E) with 1 in Hm by lia.
    change (2 ^ 1) with 2 in Hm.
    replace (2 ^ E) with (2 * 2 ^ Z.pos e).
    + rewrite <- Hm, (Z.mul_comm (Z.pos m3) 2).
      symmetry. apply round_half_even_double. apply Z.pow_pos_nonneg; lia.
    + replace E with (Z.succ (Z.pos e)) by lia. rewrite Z.pow_succ_r; lia.
Qed.

Lemma sample_size_positive (p : positive) :
  Z.pos p < 2 ^ 52 ->
  py_round (SFmul prec emax (float_of_int (Z.pos p)) percent)
  = Some (round_half_even (Z.pos p) 10).
Proof.
  intros Hp.
  destruct (float_of_int_exact p ltac:(lia)) as (mz & s & -> & Hs0 & Hs & Hmz & Hdz).
  pose proof (digits2_pos_bounds p) as [Hplo _].
  assert (Hs1 : 1 <= s <= 52).
  { split; [|lia].
    destruct (Z_lt_le_dec (Z.pos (digits2_pos p)) 53) as [|Hge]; [lia|].
    assert (2 ^ 52 <= 2 ^ (Z.pos (digits2_pos p) - 1))
      by (apply Z.pow_le_mono_r; lia). lia. }
  pose proof (digits2_pos_bounds mz) as [Hzlo Hzhi]. rewrite Hdz in Hzlo, Hzhi.
  change (2 ^ (53 - 1)) with 4503599627370496 in Hzlo.
  change (2 ^ 53) with 9007199254740992 in Hzhi.
  rewrite percent_bits. cbn [SFmul xorb].
  set (P := (mz * 7205759403792794)%positive).
  assert (HP : Z.pos P = Z.pos mz * 7205759403792794) by (unfold P; lia).
  assert (Hrange : 2 ^ 104 <= Z.pos P < 2 ^ 106).
  { change (2 ^ 104) with 20282409603651670423947251286016.
    change (2 ^ 106) with 81129638414606681695789005144064. lia. }
  assert (Hk : exists k : positive,
             (k = 52%positive \/ k = 53%positive) /\
             Z.pos (digits2_pos P) = 53 + Z.pos k).
  { destruct (Z_lt_le_dec (Z.pos P) (2 ^ 105)) as [Hlt|Hge].
    - exists 52%positive. split; [by left|].
      apply digits2_pos_unique. change (53 + 52 - 1) with 104.
      change (53 + 52) with 105. lia.
    - exists 53%positive. split; [by right|].
      apply digits2_pos_unique. change (53 + 53 - 1) with 105.
      change (53 + 53) with 106. lia. }
  destruct Hk as (k & Hk & Hdig).
  destruct (binary_round_aux_rounds P (- s + -56) k Hdig ltac:(lia) ltac:(lia))
    as (m3 & e3 & -> & He3 & Hm3).
  pose proof (digits2_pos_bounds P) as [_ HPhi]. rewrite Hdig in HPhi.
  rewrite Z.pow_add_r in HPhi by lia.
  change (2 ^ 53) with 9007199254740992 in HPhi.
  set (E := s + 56 - Z.pos k).
  rewrite (py_round_scaled m3 e3 E (round_half_even (Z.pos P) (2 ^ Z.pos k)));
    [|unfold E; lia|unfold E; lia
     |rewrite <- Hm3; f_equal; f_equal; unfold E; lia].
  f_equal.
  assert (HK : 0 < 2 ^ Z.pos k) by (apply Z.pow_pos_nonneg; lia).
  assert (HE : 4 <= E) by (unfold E; lia).
  apply (tenth_rounds (Z.pos p) (Z.pos mz) (Z.pos P) (2 ^ Z.pos k) (2 ^ E)
           (2 ^ (E - 1))); try lia.
  - change 16 with (2 ^ 4). apply Z.pow_le_mono_r; lia.
  - replace E with (Z.succ (E - 1)) at 1 by lia. rewrite Z.pow_succ_r; lia.
  - rewrite <- Z.mul_assoc, <- Z.pow_add_r by lia.
    replace (E + Z.pos k) with (56 + s) by (unfold E; lia).
    rewrite Z.pow_add_r by lia. rewrite Hmz. ring.
Qed.

(** The number of documents to sample, for every corpus below [2 ^ 52]
    documents. *)
Lemma sample_size_formula (n : nat) :
  Z.of_nat n < 2 ^ 52 ->
  sample_size percent n = Some (round_half_even (Z.of_nat n) 10).
Proof.
  intros Hn. unfold sample_size. destruct (Z.of_nat n) as [|p|p] eqn:Hp.
  - vm_compute. reflexivity.
  - by apply sample_size_positive.
  - lia.
Qed.

Lemma round_half_even_mono (m m' d : Z) :
  0 < d -> m <= m' -> round_half_even m d <= round_half_even m' d.
Proof.
  intros Hd Hle.
  pose proof (Z.div_mod m d ltac:(lia)) as Hm.
  pose proof (Z.mod_pos_bound m d Hd) as Hr.
  pose proof (Z.div_mod m' d ltac:(lia)) as Hm'.
  pose proof (Z.mod_pos_bound m' d Hd) as Hr'.
  pose proof (Z.div_le_mono m m' d Hd Hle) as Hq.
  pose proof (round_half_even_between m d Hd) as Hb.
  pose proof (round_half_even_between m' d Hd) as Hb'.
  destruct (Z.eq_dec (m / d) (m' / d)) as [Heq|Hne]; [|lia].
  assert (Hrr : m mod d <= m' mod d) by (rewrite Heq in Hm; nia).
  unfold round_half_even. rewrite Heq.
  destruct (Z.compare_spec (2 * (m mod d)) d), (Z.compare_spec (2 * (m' mod d)) d);
    try destruct (Z.even (m' / d)); lia.
Qed.

Lemma round_half_even_tenth_le (n : Z) : 0 <= n -> 0 <= round_half_even n 10 <= n.
Proof.
  intros Hn.
  pose proof (Z.div_mod n 10 ltac:(lia)) as Hm.
  pose proof (Z.mod_pos_bound n 10 ltac:(lia)) as Hr.
  unfold round_half_even.
  destruct (Z.compare_spec (2 * (n mod 10)) 10);
    try destruct (Z.even (n / 10)); lia.
Qed.

Lemma round_half_even_tenth_zero (n : Z) :
  0 <= n -> (round_half_even n 10 = 0 <-> n <= 5).
Proof.
  intros Hn.
  pose proof (Z.div_mod n 10 ltac:(lia)) as Hm.
  pose proof (Z.mod_pos_bound n 10 ltac:(lia)) as Hr.
  unfold round_half_even.
  destruct (Z.compare_spec (2 * (n mod 10)) 10) as [He|Hl|Hg].
  - destruct (Z.even (n / 10)) eqn:Hev; [lia|].
    split; [lia|]. intros Hle. assert (Hq : n / 10 = 0) by lia.
    rewrite Hq in Hev. discriminate.
  - lia.
  - lia.
Qed.

End FloatFacts.

(** ** More on source loading *)

Module LoaderFacts.

Import SourceLoader.

(** [src_files] neither is empty nor ends with the separator, so the join
    either puts [src_files] and a separator before the name or, for a name
    that starts with the separator, returns the name alone. *)
Lemma os_path_join_src_files (file : string) :
  os_path_join src_files file =
  if startswith file sep then file else "examples/ufc/data/fight/" +:+ file.
Proof.
  unfold os_path_join. destruct (startswith file sep); reflexivity.
Qed.

Lemma startswith_sep (file : string) :
  startswith file sep = true -> exists rest : string, file = String "/" rest.
Proof.
  destruct file as [|c rest]; [discriminate|].
  unfold startswith, sep. cbn [String.prefix].
  destruct (ascii_dec "/" c) as [<-|]; [by eexists|done].
Qed.

Lemma os_path_join_src_files_inj (f1 f2 : string) :
  os_path_join src_files f1 = os_path_join src_files f2 -> f1 = f2.
Proof.
  rewrite !os_path_join_src_files.
  destruct (startswith f1 sep) eqn:H1, (startswith f2 sep) eqn:H2.
  - done.
  - apply startswith_sep in H1 as [rest ->]. discriminate.
  - apply startswith_sep in H2 as [rest ->]. discriminate.
  - intros H. by injection H.
Qed.

#[global] Instance of_file_inj : Inj (=) (=) of_file.
Proof. intros f1 f2 [= H]. by apply os_path_join_src_files_inj. Qed.

Lemma load_files_NoDup (listing : list string) :
  NoDup listing -> NoDup (load_files listing).
Proof. intros Hnd. rewrite load_files_map. by apply (NoDup_fmap_2 of_file). Qed.

(** X1. Different file names never give the same source: the path built by
    [os.path.join(src_files, file)] determines the file name, so a directory
    listing without repeated names is loaded as a list of sources without
    repeated elements. *)
Theorem load_files_keeps_names_apart (listing : list string) :
  NoDup listing ->
  NoDup (load_files listing) /\
  forall f1 f2 : string,
    f1 ∈ listing -> f2 ∈ listing ->
    Source (os_path_join src_files f1) = Source (os_path_join src_files f2) ->
    f1 = f2.
Proof.
  intros Hnd. split; [by apply load_files_NoDup|].
  intros f1 f2 _ _ [= H]. by apply os_path_join_src_files_inj.
Qed.

Lemma load_files_keeps_names_apart_witness :
  NoDup (load_files ["fight_1.html"; "fight_2.html"]) /\
  forall f1 f2 : string,
    f1 ∈ ["fight_1.html"; "fight_2.html"] ->
    f2 ∈ ["fight_1.html"; "fight_2.html"] ->
    Source (os_path_join src_files f1) = Source (os_path_join src_files f2) ->
    f1 = f2.
Proof.
  apply (load_files_keeps_names_apart ["fight_1.html"; "fight_2.html"]).
  apply (bool_decide_eq_true_1 (NoDup ["fight_1.html"; "fight_2.html"])).
  vm_compute. reflexivity.
Defined.

(** X2. For names as [os.listdir] returns them, which do not start with
    the separator, every source is the file of that name inside the data
    folder: its path is [src_files], one separator and the name, in the
    order of the listing. *)
Theorem load_files_paths_in_folder (listing : list string) :
  Forall (fun file => startswith file sep = false) listing ->
  load_files listing =
  (fun file => Source ("examples/ufc/data/fight/" +:+ file)) <$> listing.
Proof.
  intros Hall. rewrite load_files_map.
  induction Hall as [|file listing Hfile _ IH]; [done|].
  rewrite !fmap_cons, IH. f_equal. unfold of_file.
  by rewrite os_path_join_src_files, Hfile.
Qed.

Lemma load_files_paths_in_folder_witness :
  load_files ["fight_1.html"; "fight_2.html"] =
  (fun file => Source ("examples/ufc/data/fight/" +:+ file))
    <$> ["fight_1.html"; "fight_2.html"].
Proof.
  apply (load_files_paths_in_folder ["fight_1.html"; "fight_2.html"]).
  repeat constructor.
Defined.

End LoaderFacts.

(** ** More on the sampling step *)

Module SamplingFacts.

Import SourceLoader Sampling FloatFacts LoaderFacts.

#[local] Open Scope Z_scope.

(** X3. For every corpus of fewer than [2 ^ 52] documents,
    [round(len(sources) * percent)] with [percent = 0.1] is the tenth of the
    number of documents rounded to the nearest integer, a tie going to the
    even one: the binary64 product never lands on the other side of a
    half.  The sample size is therefore within half a document of ten
    percent. *)
Theorem sample_size_is_rounded_tenth (n : nat) :
  Z.of_nat n < 2 ^ 52 ->
  exists k : Z,
    sample_size percent n = Some k /\
    k = round_half_even (Z.of_nat n) 10 /\
    -5 <= 10 * k - Z.of_nat n <= 5.
Proof.
  intros Hn. exists (round_half_even (Z.of_nat n) 10).
  split; [by apply sample_size_formula|]. split; [done|].
  pose proof (round_half_even_near (Z.of_nat n) 10 ltac:(lia)). lia.
Qed.

Lemma sample_size_is_rounded_tenth_witness :
  exists k : Z,
    sample_size percent 25 = Some k /\
    k = round_half_even (Z.of_nat 25) 10 /\
    -5 <= 10 * k - Z.of_nat 25 <= 5.
Proof. apply (sample_size_is_rounded_tenth 25). vm_compute. reflexivity. Defined.

(** X4. For every corpus of fewer than [2 ^ 52] documents the sample size
    is 0 exactly when there are at most five documents: from six documents
    on the ontology detection gets at least one. *)
Theorem sample_size_zero_iff_at_most_five (n : nat) :
  Z.of_nat n < 2 ^ 52 ->
  (sample_size percent n = Some 0 <-> (n <= 5)%nat).
Proof.
  intros Hn. rewrite sample_size_formula by done.
  pose proof (round_half_even_tenth_zero (Z.of_nat n) ltac:(lia)) as Hzero.
  split.
  - intros [= Hk]. apply Hzero in Hk. lia.
  - intros Hle. f_equal. apply Hzero. lia.
Qed.

Lemma sample_size_zero_iff_at_most_five_witness :
  sample_size percent 6 = Some 0 <-> (6 <= 5)%nat.
Proof. apply (sample_size_zero_iff_at_most_five 6). vm_compute. reflexivity. Defined.

(** X5. More documents never give a smaller sample: for corpora of fewer
    than [2 ^ 52] documents the sample size grows weakly with the number of
    documents and never exceeds it. *)
Theorem sample_size_monotone (n m : nat) :
  (n <= m)%nat -> Z.of_nat m < 2 ^ 52 ->
  exists k k' : Z,
    sample_size percent n = Some k /\
    sample_size percent m = Some k' /\
    0 <= k <= k' /\ k' <= Z.of_nat m.
Proof.
  intros Hnm Hm.
  exists (round_half_even (Z.of_nat n) 10), (round_half_even (Z.of_nat m) 10).
  rewrite !sample_size_formula by lia. repeat split.
  - apply round_half_even_tenth_le. lia.
  - apply round_half_even_mono; lia.
  - apply round_half_even_tenth_le. lia.
Qed.

Lemma sample_size_monotone_witness :
  exists k k' : Z,
    sample_size percent 14 = Some k /\
    sample_size percent 16 = Some k' /\
    0 <= k <= k' /\ k' <= Z.of_nat 16.
Proof.
  apply (sample_size_monotone 14 16); [lia|vm_compute; reflexivity].
Defined.

Section Generator.

Context {A : Type}.
Variable rng : Type.
Variable randbelow : nat -> rng -> nat * rng.

Hypothesis randbelow_lt : forall (n : nat) (g : rng),
  (0 < n)%nat -> ((randbelow n g).1 < n)%nat.

Lemma redraw_no_raise (fuel n : nat) (selected : gset nat) :
  forall (j : nat) (g : rng) (e : exn),
    redraw rng randbelow fuel n selected j g <> Raise e.
Proof.
  induction fuel as [|fuel IH]; intros j g e; simpl.
  - by case_decide.
  - case_decide; [|done]. destruct (randbelow n g) as [j1 g1]. apply IH.
Qed.

Lemma set_loop_no_raise (fuel : nat) (population : list A) (steps : nat) :
  forall (selected : gset nat) (g : rng) (result : list A) (js : list nat)
         (e : exn),
    picked population js result selected ->
    (length js + steps <= length population)%nat ->
    set_loop rng randbelow fuel steps (length population) population
      selected g result <> Raise e.
Proof.
  induction steps as [|steps IH]; intros selected g result js e Hinv Hlen; simpl;
    [done|].
  pose proof (randbelow_lt (length population) g ltac:(lia)) as Hj0.
  destruct (randbelow (length population) g) as [j0 g0]. simpl in Hj0.
  destruct (redraw rng randbelow fuel (length population) selected j0 g0)
    as [[j g1]|e'|] eqn:Hre; simpl; [| |done].
  - pose proof (redraw_lt rng randbelow randbelow_lt fuel (length population)
                  selected j0 g0 j g1 ltac:(lia) Hj0 Hre) as Hj.
    pose proof (redraw_unselected rng randbelow _ _ _ _ _ _ _ Hre) as Hfresh.
    destruct (lookup_lt_is_Some_2 population j Hj) as [x Hx].
    unfold getitem. rewrite Hx. simpl.
    apply (IH _ _ _ (js ++ [j])).
    + by apply picked_snoc.
    + rewrite length_app. simpl. lia.
  - by apply redraw_no_raise in Hre.
Qed.

Lemma random_sample_no_raise (fuel : nat) (population : list A) (k : Z)
    (g : rng) (e : exn) :
  0 <= k <= Z.of_nat (length population) ->
  random_sample rng randbelow fuel population k g <> Raise e.
Proof.
  intros Hk. unfold random_sample.
  assert (Hguard : (0 <=? k) && (k <=? Z.of_nat (length population)) = true).
  { apply andb_true_iff. split; apply Z.leb_le; lia. }
  rewrite Hguard. simpl. case_decide.
  - destruct (pool_loop_returns rng randbelow randbelow_lt population
                (Z.to_nat k) 0 population g [])
      as (sampled & g' & Hrun & _); simpl; try done; try lia.
    { by rewrite Nat.sub_0_r, firstn_all. }
    by rewrite Hrun.
  - apply (set_loop_no_raise _ _ _ _ _ _ []); [|simpl; lia].
    repeat split; [apply NoDup_nil_2|constructor].
Qed.

End Generator.

(** X6. Whatever the fuel and the state of the generator, as long as
    [randbelow(n)] stays below n the sampling step of cell 4 raises nothing
    on a corpus of fewer than [2 ^ 52] documents: the sample size is never
    negative or larger than the corpus, so [random.sample] does not raise
    [ValueError], and no index is out of range. *)
Theorem sampling_raises_nothing {A : Type} (rng : Type)
    (randbelow : nat -> rng -> nat * rng) :
  (forall (n : nat) (g : rng), (0 < n)%nat -> ((randbelow n g).1 < n)%nat) ->
  forall (fuel : nat) (sources : list A) (g : rng) (e : exn),
    Z.of_nat (length sources) < 2 ^ 52 ->
    sampled_sources rng randbelow fuel percent sources g <> Raise e.
Proof.
  intros Hlt fuel sources g e Hn. unfold sampled_sources.
  rewrite sample_size_formula by done.
  apply random_sample_no_raise; [done|].
  apply round_half_even_tenth_le. lia.
Qed.

Lemma sampling_raises_nothing_witness :
  Z.of_nat (length (load_files thirty_files)) < 2 ^ 52 /\
  sampled_sources nat counter_randbelow 0 percent
    (load_files thirty_files) 0%nat <> Raise ValueError.
Proof.
  split; [vm_compute; reflexivity|].
  apply (sampling_raises_nothing nat counter_randbelow counter_randbelow_lt
           0%nat (load_files thirty_files) 0%nat ValueError).
  vm_compute. reflexivity.
Defined.

(** X7. Loading and sampling together: for a directory listing without
    repeated names and with fewer than [2 ^ 52] names, and a generator
    whose [randbelow(n)] stays below n and keeps reaching every number
    below n, cells 3 and 4 return a sample whose size is the rounded tenth
    of the number of files, in which no source occurs twice and every
    source is [Source(os.path.join(src_files, file))] for a file of the
    listing. *)
Theorem sample_of_loaded_files (rng : Type)
    (randbelow : nat -> rng -> nat * rng) :
  (forall (n : nat) (g : rng), (0 < n)%nat -> ((randbelow n g).1 < n)%nat) ->
  (forall (n : nat) (g : rng) (v : nat), (v < n)%nat ->
     exists m : nat,
       (randbelow n (Nat.iter m (fun g => (randbelow n g).2) g)).1 = v) ->
  forall (listing : list string) (g : rng),
    NoDup listing ->
    Z.of_nat (length listing) < 2 ^ 52 ->
    exists (fuel : nat) (sampled : list source) (g' : rng),
      sampled_sources rng randbelow fuel percent (load_files listing) g
        = Return (sampled, g') /\
      Z.of_nat (length sampled)
        = round_half_even (Z.of_nat (length listing)) 10 /\
      NoDup sampled /\
      forall x : source,
        x ∈ sampled ->
        exists file : string,
          file ∈ listing /\ x = Source (os_path_join src_files file).
Proof.
  intros Hlt Hfair listing g Hnd Hn.
  assert (Hlen : length (load_files listing) = length listing)
    by (rewrite load_files_map; apply length_fmap).
  pose proof (round_half_even_tenth_le (Z.of_nat (length listing)) ltac:(lia))
    as Hk.
  destruct (random_sample_returns rng randbelow Hlt Hfair (load_files listing)
              (round_half_even (Z.of_nat (length listing)) 10) g)
    as (fuel & sampled & g' & Hrun); [rewrite Hlen; lia|].
  destruct (random_sample_sound rng randbelow Hlt _ _ _ _ _ _ Hrun)
    as [Hsize Hsub].
  exists fuel, sampled, g'. unfold sampled_sources.
  rewrite Hlen, sample_size_formula by done.
  split; [done|]. split; [done|]. split.
  - eapply submseteq_NoDup; [done|]. by apply load_files_NoDup.
  - intros x Hx.
    assert (Hin : x ∈ load_files listing) by (by eapply elem_of_submseteq).
    rewrite load_files_map in Hin.
    apply list_elem_of_fmap in Hin as (file & -> & Hfile). by exists file.
Qed.

Lemma sample_of_loaded_files_witness :
  exists (fuel : nat) (sampled : list source) (g' : nat),
    sampled_sources nat counter_randbelow fuel percent
      (load_files thirty_files) 0%nat = Return (sampled, g') /\
    Z.of_nat (length sampled)
      = round_half_even (Z.of_nat (length thirty_files)) 10 /\
    NoDup sampled /\
    forall x : source,
      x ∈ sampled ->
      exists file : string,
        file ∈ thirty_files /\ x = Source (os_path_join src_files file).
Proof.
  apply (sample_of_loaded_files nat counter_randbelow counter_randbelow_lt
           counter_randbelow_fair thirty_files 0%nat).
  - apply (bool_decide_eq_true_1 (NoDup thirty_files)). vm_compute. reflexivity.
  - vm_compute. reflexivity.
Defined.

(** X8. Asked for as many elements as the population has,
    [random.sample] returns a permutation of the population: every element
    exactly as often as it occurs. *)
Theorem random_sample_of_everything_is_a_permutation {A : Type} (rng : Type)
    (randbelow : nat -> rng -> nat * rng) :
  (forall (n : nat) (g : rng), (0 < n)%nat -> ((randbelow n g).1 < n)%nat) ->
  (forall (n : nat) (g : rng) (v : nat), (v < n)%nat ->
     exists m : nat,
       (randbelow n (Nat.iter m (fun g => (randbelow n g).2) g)).1 = v) ->
  forall (population : list A) (g : rng),
    exists (fuel : nat) (sampled : list A) (g' : rng),
      random_sample rng randbelow fuel population
        (Z.of_nat (length population)) g = Return (sampled, g') /\
      sampled ≡ₚ population.
Proof.
  intros Hlt Hfair population g.
  destruct (random_sample_returns rng randbelow Hlt Hfair population
              (Z.of_nat (length population)) g)
    as (fuel & sampled & g' & Hrun); [lia|].
  destruct (random_sample_sound rng randbelow Hlt _ _ _ _ _ _ Hrun)
    as [Hsize Hsub].
  exists fuel, sampled, g'. split; [done|].
  apply submseteq_length_Permutation; [done|lia].
Qed.

Lemma random_sample_of_everything_is_a_permutation_witness :
  exists (fuel : nat) (sampled : list source) (g' : nat),
    random_sample nat counter_randbelow fuel (load_urls urls)
      (Z.of_nat (length (load_urls urls))) 0%nat = Return (sampled, g') /\
    sampled ≡ₚ load_urls urls.
Proof.
  apply (random_sample_of_everything_is_a_permutation nat counter_randbelow
           counter_randbelow_lt counter_randbelow_fair (load_urls urls) 0%nat).
Defined.

End SamplingFacts.

(** ** More on the JSON text *)

Module JsonFacts.

Import Json.

Lemma chars_append (a b : string) : chars (a +:+ b) = chars a ++ chars b.
Proof. induction a as [|c a IH]; [done|]. simpl. by rewrite <- IH. Qed.

Lemma chars_dumps (indent : option nat) (v : value) :
  chars (dumps indent v) = encode indent 0 v.
Proof. apply String.list_ascii_of_string_of_list_ascii. Qed.

Lemma skip_whitespace_all (ws : text) : blank ws -> skip_whitespace ws = [].
Proof.
  intros Hws. rewrite <- (app_nil_r ws). by rewrite skip_whitespace_blank.
Qed.

Lemma parse_dumps (indent : option nat) (v : value) (ws rest : text) :
  blank ws ->
  parse_value (S (length (ws ++ encode indent 0 v ++ rest)))
    (ws ++ encode indent 0 v ++ rest) = Some (v, rest).
Proof.
  intros Hws.
  destruct (reads_all (S (length (ws ++ encode indent 0 v ++ rest))))
    as (Hread & _ & _).
  apply Hread; [done|].
  pose proof (size_le_length (size v) v indent 0 ltac:(lia)).
  rewrite !length_app. lia.
Qed.

(** X9. What [json.dumps] writes, with whatever indentation, [json.loads]
    reads back as the value written, also when whitespace stands before and
    after the document: the file saved with [indent=2] and the text printed
    with [indent=4] denote the same value. *)
Theorem loads_reads_what_dumps_wrote (v : value) (indent : option nat)
    (before after : string) :
  blank (chars before) -> blank (chars after) ->
  loads (before +:+ dumps indent v +:+ after) = Some v.
Proof.
  intros Hb Ha. unfold loads.
  rewrite !chars_append, chars_dumps, parse_dumps by done. simpl.
  by rewrite skip_whitespace_all.
Qed.

Lemma loads_reads_what_dumps_wrote_witness :
  loads (" " +:+ dumps (Some 2) (VList [VStr "Bout"; VBool true]) +:+ " ")
  = Some (VList [VStr "Bout"; VBool true]).
Proof.
  apply (loads_reads_what_dumps_wrote (VList [VStr "Bout"; VBool true])
           (Some 2) " " " ");
    by repeat constructor.
Defined.

(** X10. Anything but whitespace after the document makes [json.loads]
    fail: it does not return the document and drop the rest. *)
Theorem loads_rejects_extra_data (v : value) (indent : option nat)
    (c : ascii) (rest : string) :
  is_whitespace c = false ->
  loads (dumps indent v +:+ String c rest) = None.
Proof.
  intros Hc. unfold loads.
  rewrite chars_append, chars_dumps.
  pose proof (parse_dumps indent v [] (chars (String c rest)) ltac:(constructor))
    as Hrun.
  rewrite app_nil_l in Hrun. rewrite Hrun. simpl. by rewrite Hc.
Qed.

Lemma loads_rejects_extra_data_witness :
  loads (dumps (Some 2) (VDict [("label", VStr "Bout")]) +:+ "}")
  = None.
Proof.
  apply (loads_rejects_extra_data (VDict [("label", VStr "Bout")]) (Some 2)
           "}" EmptyString).
  reflexivity.
Defined.

(** *** The characters of the text *)

Definition printable (c : ascii) : bool :=
  (32 <=? nat_of_ascii c)%nat && (nat_of_ascii c <=? 126)%nat.

(** A character that may stand in the output: printable, or with an
    indentation the line feed. *)
Definition plain (indent : option nat) (c : ascii) : bool :=
  printable c || (bool_decide (indent <> None) && Ascii.eqb c "010").

Lemma encode_char_printable (c : ascii) : forallb printable (encode_char c) = true.
Proof. destruct c as [[] [] [] [] [] [] [] []]; reflexivity. Qed.

Lemma printable_plain (indent : option nat) (t : text) :
  forallb printable t = true -> forallb (plain indent) t = true.
Proof.
  rewrite !forallb_forall. intros H c Hc. unfold plain. by rewrite (H c Hc).
Qed.

Lemma encode_string_printable (s : string) :
  forallb printable (encode_string s) = true.
Proof.
  unfold encode_string. cbn [forallb]. rewrite forallb_app.
  apply andb_true_iff. split; [reflexivity|]. apply andb_true_iff.
  split; [|reflexivity].
  induction (chars s) as [|c t IH]; [done|].
  cbn [flat_map]. rewrite forallb_app, encode_char_printable, IH. done.
Qed.

Lemma newline_indent_plain (n m level : nat) :
  forallb (plain (Some m)) (newline_indent n level) = true.
Proof.
  unfold newline_indent. cbn [forallb].
  apply andb_true_iff. split; [reflexivity|].
  induction (n * level)%nat as [|k IH]; [done|]. simpl. exact IH.
Qed.

Lemma after_open_plain (indent : option nat) (level : nat) :
  forallb (plain indent) (after_open indent level) = true.
Proof. destruct indent; [apply newline_indent_plain|done]. Qed.

Lemma before_close_plain (indent : option nat) (level : nat) :
  forallb (plain indent) (before_close indent level) = true.
Proof. destruct indent; [apply newline_indent_plain|done]. Qed.

Lemma between_plain (indent : option nat) (level : nat) :
  forallb (plain indent) (between indent level) = true.
Proof.
  destruct indent; [|done]. unfold between. cbn [forallb].
  by rewrite newline_indent_plain.
Qed.

Lemma encode_plain (indent : option nat) (n : nat) :
  forall (v : value) (level : nat),
    (size v <= n)%nat -> forallb (plain indent) (encode indent level v) = true.
Proof.
  induction n as [|n IH]; intros v level Hn.
  { pose proof (size_pos v). lia. }
  destruct v as [|[]|s|[|x xs]|[|[k x] kxs]]; try reflexivity.
  - apply printable_plain, encode_string_printable.
  - rewrite encode_VList_cons. rewrite size_VList_cons in Hn.
    pose proof (size_pos (VList xs)) as Hxs.
    cbn [forallb]. rewrite !forallb_app.
    rewrite after_open_plain, before_close_plain, IH by lia.
    assert (Hrest : forallb (plain indent) (items_text indent level xs) = true).
    { assert (Hb : (size (VList xs) <= S n)%nat) by lia. clear -IH Hb.
      induction xs as [|y ys IHys]; [done|].
      rewrite size_VList_cons in Hb. pose proof (size_pos (VList ys)).
      cbn [items_text flat_map]. fold (items_text indent level ys).
      rewrite !forallb_app, between_plain, IH, IHys by lia. done. }
    rewrite Hrest. reflexivity.
  - rewrite encode_VDict_cons. rewrite size_VDict_cons in Hn.
    pose proof (size_pos (VDict kxs)) as Hkxs.
    cbn [forallb]. rewrite !forallb_app.
    rewrite after_open_plain, before_close_plain, IH by lia.
    rewrite (printable_plain _ _ (encode_string_printable k)).
    assert (Hrest : forallb (plain indent) (members_text indent level kxs) = true).
    { assert (Hb : (size (VDict kxs) <= S n)%nat) by lia. clear -IH Hb.
      induction kxs as [|[k' y] kys IHkys]; [done|].
      rewrite size_VDict_cons in Hb. pose proof (size_pos (VDict kys)).
      cbn [members_text flat_map fst snd]. fold (members_text indent level kys).
      rewrite !forallb_app, between_plain, IH, IHkys by lia.
      rewrite (printable_plain _ _ (encode_string_printable k')). done. }
    rewrite Hrest. reflexivity.
Qed.

(** X11. The text that [json.dumps] writes is plain ASCII whatever the
    strings of the value hold: every character is printable ASCII (codes 32
    to 126) or the line feed of the indentation, and without indentation
    there is no line feed. *)
Theorem dumps_writes_plain_ascii (indent : option nat) (v : value) (c : ascii) :
  c ∈ chars (dumps indent v) ->
  ((32 <= nat_of_ascii c <= 126)%nat \/ (c = "010"%char /\ indent <> None)).
Proof.
  rewrite chars_dumps. intros Hc.
  pose proof (encode_plain indent (size v) v 0 ltac:(lia)) as Hplain.
  rewrite forallb_forall in Hplain.
  specialize (Hplain c (proj1 (list_elem_of_In _ _) Hc)).
  unfold plain, printable in Hplain.
  apply orb_true_iff in Hplain as [Hp|Hnl].
  - left. apply andb_true_iff in Hp as [H1 H2].
    apply Nat.leb_le in H1, H2. lia.
  - apply andb_true_iff in Hnl as [Hi Hnl].
    apply bool_decide_eq_true_1 in Hi. apply Ascii.eqb_eq in Hnl. by right.
Qed.

Lemma dumps_writes_plain_ascii_witness :
  (32 <= nat_of_ascii "{" <= 126)%nat
  \/ ("{"%char = "010"%char /\ Some 2 <> @None nat).
Proof.
  apply (dumps_writes_plain_ascii (Some 2) (VDict [("label", VStr "Bout")]) "{").
  vm_compute. apply list_elem_of_here.
Defined.

End JsonFacts.

(** ** Names are bound before they are read

    A notebook is run cell after cell in one namespace.  [run_stmt] follows
    Python's rule for code at module level: a statement may read the names
    bound so far, and fails on any other, as the interpreter does with a
    [NameError]; it returns the names bound after it.  What a loop that may
    run no turn, a branch or a handler binds is not counted as bound
    afterwards. *)

Module NotebookFacts.

Import Notebook.

Definition namespace : Type := list string.

Definition is_bound (env : namespace) (id : string) : bool :=
  bool_decide (id ∈ env).

(** All names that [e] reads are bound in [env]. *)
Fixpoint reads_bound (env : namespace) (e : expr) : bool :=
  match e with
  | Name id => is_bound env id
  | Str _ | Num _ | NoneLit => true
  | Attribute v _ => reads_bound env v
  | Subscript v i => reads_bound env v && reads_bound env i
  | Call f args keywords =>
      reads_bound env f && forallb (reads_bound env) args
        && forallb (fun kw => reads_bound env (snd kw)) keywords
  | BinOp l _ r | Compare l _ r => reads_bound env l && reads_bound env r
  | BoolOp _ vs | ListLit vs | JoinedStr vs => forallb (reads_bound env) vs
  | DictLit items =>
      forallb (fun kv => reads_bound env (fst kv) && reads_bound env (snd kv)) items
  | ListComp elt target iter ifs =>
      reads_bound env iter && reads_bound (target :: env) elt
        && forallb (reads_bound (target :: env)) ifs
  | IfExp t b o => reads_bound env t && reads_bound env b && reads_bound env o
  | Lambda params body => reads_bound (params ++ env) body
  end.

(** An assignment binds a name, or stores into an object that it reads. *)
Definition assign (env : namespace) (target : expr) : option namespace :=
  match target with
  | Name id => Some (id :: env)
  | _ => if reads_bound env target then Some env else None
  end.

Definition ensure (ok : bool) : option unit := if ok then Some tt else None.

Fixpoint run_stmt (env : namespace) (s : stmt) {struct s} : option namespace :=
  let run_block :=
    fix run_block (env : namespace) (body : list stmt) {struct body}
        : option namespace :=
      match body with
      | [] => Some env
      | s :: rest =>
          match run_stmt env s with
          | Some env' => run_block env' rest
          | None => None
          end
      end in
  match s with
  | Shell _ => Some env
  | Import name => Some (name :: env)
  | ImportFrom _ names => Some (names ++ env)
  | Assign target value =>
      _ ← ensure (reads_bound env value); assign env target
  | AugAssign target _ value =>
      _ ← ensure (reads_bound env target && reads_bound env value); Some env
  | Expr value | ReturnStmt value =>
      _ ← ensure (reads_bound env value); Some env
  | For target iter body =>
      _ ← ensure (reads_bound env iter);
      _ ← run_block (target :: env) body; Some env
  | While test body =>
      _ ← ensure (reads_bound env test);
      _ ← run_block env body; Some env
  | If test body orelse =>
      _ ← ensure (reads_bound env test);
      _ ← run_block env body;
      _ ← run_block env orelse; Some env
  | With context target body =>
      _ ← ensure (reads_bound env context);
      run_block (target :: env) body
  | Try body handlers finalbody =>
      _ ← run_block env body;
      _ ← run_block env handlers;
      _ ← run_block env finalbody; Some env
  | FunctionDef name params body =>
      _ ← run_block (params ++ name :: env) body; Some (name :: env)
  | ClassDef name bases body =>
      _ ← ensure (forallb (reads_bound env) bases);
      _ ← run_block env body; Some (name :: env)
  end.

Fixpoint run_block (env : namespace) (body : list stmt) : option namespace :=
  match body with
  | [] => Some env
  | s :: rest => env' ← run_stmt env s; run_block env' rest
  end.

(** The cells of a notebook, run from the first to the last in a fresh
    kernel. *)
Definition run_cells (cells : list cell) : option namespace :=
  run_block builtins (concat cells).

(** The names a cell needs from the cells before it. *)
Definition runs_after (earlier : list cell) (c : cell) : bool :=
  match run_cells earlier with
  | Some env => bool_decide (is_Some (run_block env c))
  | None => false
  end.

Example reload_cell_needs_the_cells_before :
  runs_after (take 2 ufc_cells) (ufc_cells !!! 5%nat) = false /\
  runs_after (take 5 ufc_cells) (ufc_cells !!! 5%nat) = true.
Proof. vm_compute. done. Qed.

Lemma run_block_app (env : namespace) (a b : list stmt) :
  run_block env (a ++ b) = env' ← run_block env a; run_block env' b.
Proof.
  revert env. induction a as [|s a IH]; intros env; [done|].
  simpl. destruct (run_stmt env s) as [env'|]; [apply IH|done].
Qed.

Lemma run_cells_snoc (cells : list cell) (c : cell) :
  run_cells (cells ++ [c]) = env ← run_cells cells; run_block env c.
Proof.
  unfold run_cells. rewrite concat_app, run_block_app. simpl.
  by rewrite app_nil_r.
Qed.

(** X12. Run from the first cell to the last in a fresh kernel, neither
    notebook reads a name that no earlier statement has imported or bound:
    every cell runs after the cells before it. *)
Theorem cells_read_only_names_bound_before (notebook : list cell) (i : nat)
    (c : cell) :
  notebook ∈ [movies_cells; ufc_cells] ->
  notebook !! i = Some c ->
  runs_after (take i notebook) c = true.
Proof.
  intros Hnb Hc.
  assert (Hall : forall nb, nb ∈ [movies_cells; ufc_cells] ->
            forallb (fun j => match nb !! j with
                              | Some c => runs_after (take j nb) c
                              | None => true
                              end) (seq 0 (length nb)) = true).
  { intros nb Hin. apply list_elem_of_In in Hin.
    destruct Hin as [<-|[<-|[]]]; vm_compute; reflexivity. }
  specialize (Hall notebook Hnb). rewrite forallb_forall in Hall.
  specialize (Hall i). rewrite Hc in Hall. apply Hall.
  apply in_seq. apply lookup_lt_Some in Hc. lia.
Qed.

Lemma cells_read_only_names_bound_before_witness :
  runs_after (take 3 ufc_cells) (ufc_cells !!! 3%nat) = true.
Proof.
  apply (cells_read_only_names_bound_before ufc_cells 3).
  - apply list_elem_of_further, list_elem_of_here.
  - reflexivity.
Defined.

End NotebookFacts.
